(** * zod-open-api: the request validation of [src/server.ts]

  The server declares its schemas with zod (v3), validates the body of
  [POST /users] in the middleware [validateRequest] and echoes the parsed
  value.  This development embeds

  - the JavaScript values a request body is made of ([JS]),
  - the fragment of zod that [server.ts] calls: the schema classes, their
    [_parse] methods, the issue list of the parse context, [safeParse] and
    [parseAsync] ([Zod]),
  - the Express pipeline of a route: a list of handlers, each of which
    calls [next()], [next(err)] or sends a response ([Express]),
  - the declarations of [server.ts] itself ([Server]),

  and then states what the specification says about them. *)

From Stdlib Require Import List String Ascii ZArith QArith Bool Lia.
From Stdlib Require Import Qround DecimalString.
Import ListNotations.

Set Warnings "-register-all".
Close Scope Q_scope.
Open Scope list_scope.
Open Scope string_scope.

(* ================================================================== *)
(** ** JavaScript values *)

Module JS.

(** A JavaScript number: a finite value (every finite double is a
    rational), an infinity ([JSON.parse "1e999"]) or [NaN]. *)
Inductive number : Type :=
| Finite (q : Q)
| PosInfinity
| NegInfinity
| NaN.

(** The values zod inspects.  An object is the list of its own properties
    in insertion order; a string is its sequence of code units. *)
Inductive value : Type :=
| VUndefined
| VNull
| VBoolean (b : bool)
| VNumber (n : number)
| VString (s : string)
| VArray (items : list value)
| VObject (props : list (string * value)).

Definition ofZ (z : Z) : number := Finite (inject_Z z).
Definition ofNat (n : nat) : number := ofZ (Z.of_nat n).

(** [Number.isInteger] *)
Definition isInteger (n : number) : bool :=
  match n with
  | Finite q => (Qnum q mod Zpos (Qden q) =? 0)%Z
  | _ => false
  end.

(** [a < b] on numbers; every comparison with [NaN] is false. *)
Definition lt (a b : number) : bool :=
  match a, b with
  | NaN, _ | _, NaN => false
  | Finite p, Finite q => (Qnum p * QDen q <? Qnum q * QDen p)%Z
  | NegInfinity, NegInfinity => false
  | NegInfinity, _ => true
  | Finite _, PosInfinity => true
  | _, _ => false
  end.

(** [a > b] *)
Definition gt (a b : number) : bool := lt b a.

(** [a <= b] *)
Definition le (a b : number) : bool :=
  match a, b with
  | NaN, _ | _, NaN => false
  | Finite p, Finite q => (Qnum p * QDen q <=? Qnum q * QDen p)%Z
  | NegInfinity, _ => true
  | _, PosInfinity => true
  | _, _ => false
  end.

(** [a >= b] *)
Definition ge (a b : number) : bool := le b a.

(** [key in obj] for an own property. *)
Fixpoint hasKey (props : list (string * value)) (key : string) : bool :=
  match props with
  | [] => false
  | (k, _) :: rest => if String.eqb k key then true else hasKey rest key
  end.

(** [obj[key]]: the property's value, [undefined] when there is none. *)
Fixpoint get (props : list (string * value)) (key : string) : value :=
  match props with
  | [] => VUndefined
  | (k, v) :: rest => if String.eqb k key then v else get rest key
  end.

(** [obj[key] = v]: overwrite in place, or append a new property. *)
Fixpoint set (props : list (string * value)) (key : string) (v : value)
  : list (string * value) :=
  match props with
  | [] => [(key, v)]
  | (k, w) :: rest =>
      if String.eqb k key then (k, v) :: rest else (k, w) :: set rest key v
  end.

Definition keys (props : list (string * value)) : list string :=
  map fst props.

(** [Array.prototype.includes] on an array of strings. *)
Definition includes (xs : list string) (x : string) : bool :=
  existsb (String.eqb x) xs.

(** [xs.join(sep)] *)
Fixpoint join (sep : string) (xs : list string) : string :=
  match xs with
  | [] => EmptyString
  | [x] => x
  | x :: rest => x ++ sep ++ join sep rest
  end.

(** The decimal text of an integer, as [String(n)] prints it. *)
Definition showZ (z : Z) : string :=
  match z with
  | Z0 => "0"
  | Zpos p => NilEmpty.string_of_uint (Pos.to_uint p)
  | Zneg p => "-" ++ NilEmpty.string_of_uint (Pos.to_uint p)
  end.

End JS.

Import JS.

(* ================================================================== *)
(** ** The zod fragment used by the server *)

Module Zod.

(** *** Parsed types ([ZodParsedType], [getParsedType]) *)

Inductive ZodParsedType : Type :=
| zpt_string | zpt_nan | zpt_number | zpt_integer | zpt_float
| zpt_boolean | zpt_undefined | zpt_null | zpt_array | zpt_object.

Definition typeName (t : ZodParsedType) : string :=
  match t with
  | zpt_string => "string"
  | zpt_nan => "nan"
  | zpt_number => "number"
  | zpt_integer => "integer"
  | zpt_float => "float"
  | zpt_boolean => "boolean"
  | zpt_undefined => "undefined"
  | zpt_null => "null"
  | zpt_array => "array"
  | zpt_object => "object"
  end.

Definition getParsedType (data : value) : ZodParsedType :=
  match data with
  | VUndefined => zpt_undefined
  | VNull => zpt_null
  | VBoolean _ => zpt_boolean
  | VNumber NaN => zpt_nan
  | VNumber _ => zpt_number
  | VString _ => zpt_string
  | VArray _ => zpt_array
  | VObject _ => zpt_object
  end.

(** *** Issues *)

Inductive PathItem : Type :=
| Key (k : string)
| Index (i : nat).

(** The issue payload by [code]; the fields are those zod attaches. *)
Inductive IssueData : Type :=
| invalid_type (expected received : string)
| invalid_enum_value (received : string) (options : list string)
| invalid_string (validation : string)
| too_small (minimum : Z) (type : string) (inclusive exact : bool)
| too_big (maximum : Z) (type : string) (inclusive exact : bool)
| custom.

Definition code (d : IssueData) : string :=
  match d with
  | invalid_type _ _ => "invalid_type"
  | invalid_enum_value _ _ => "invalid_enum_value"
  | invalid_string _ => "invalid_string"
  | too_small _ _ _ _ => "too_small"
  | too_big _ _ _ _ => "too_big"
  | custom => "custom"
  end.

Record ZodIssue : Type := mkIssue {
  data : IssueData;
  path : list PathItem;
  message : string
}.

(** [util.joinValues]: string values quoted, joined by [" | "]. *)
Definition joinValues (values : list string) : string :=
  join " | " (map (fun v => "'" ++ v ++ "'") values).

(** *** Error maps *)

(** An error map receives the issue, the data under validation and the
    message computed so far ([ctx.defaultError]). *)
Definition ZodErrorMap : Type := IssueData -> value -> string -> string.

(** zod's default (English) error map, for the issue codes above. *)
Definition defaultErrorMap : ZodErrorMap := fun issue _ _ =>
  match issue with
  | invalid_type expected received =>
      if String.eqb received "undefined" then "Required"
      else "Expected " ++ expected ++ ", received " ++ received
  | invalid_enum_value received options =>
      "Invalid enum value. Expected " ++ joinValues options ++ ", received '"
        ++ received ++ "'"
  | invalid_string validation =>
      if String.eqb validation "regex" then "Invalid"
      else "Invalid " ++ validation
  | too_small minimum type inclusive exact =>
      if String.eqb type "string" then
        "String must contain "
          ++ (if exact then "exactly" else if inclusive then "at least" else "over")
          ++ " " ++ showZ minimum ++ " character(s)"
      else
        "Number must be "
          ++ (if exact then "exactly equal to "
              else if inclusive then "greater than or equal to "
              else "greater than ")
          ++ showZ minimum
  | too_big maximum type inclusive exact =>
      if String.eqb type "string" then
        "String must contain "
          ++ (if exact then "exactly" else if inclusive then "at most" else "under")
          ++ " " ++ showZ maximum ++ " character(s)"
      else
        "Number must be "
          ++ (if exact then "exactly"
              else if inclusive then "less than or equal to"
              else "less than")
          ++ " " ++ showZ maximum
  | custom => "Invalid input"
  end.

(** The creation parameters [server.ts] passes to a schema constructor. *)
Record RawCreateParams : Type := mkParams {
  errorMap : option string;  (* errorMap: () => ({ message }) *)
  invalid_type_error : option string;
  required_error : option string
}.

Definition orElse (o : option string) (d : string) : string :=
  match o with Some s => s | None => d end.

(** [processCreateParams]: the schema's own error map. *)
Definition processCreateParams (params : option RawCreateParams)
  : option ZodErrorMap :=
  match params with
  | None => None
  | Some p =>
      match errorMap p with
      | Some m => Some (fun _ _ _ => m)
      | None =>
          Some (fun issue data defaultError =>
            match issue, data with
            | invalid_enum_value _ _, _ => defaultError
            | _, VUndefined => orElse (required_error p) defaultError
            | invalid_type _ _, _ => orElse (invalid_type_error p) defaultError
            | _, _ => defaultError
            end)
      end
  end.

(** [makeIssue]: an explicit message wins; otherwise the maps run from the
    default one to the schema's, each seeing the previous message. *)
Definition makeIssue (schemaErrorMap : option ZodErrorMap) (input : value)
    (p : list PathItem) (issue : IssueData) (msg : option string) : ZodIssue :=
  match msg with
  | Some m => mkIssue issue p m
  | None =>
      let d := defaultErrorMap issue input EmptyString in
      mkIssue issue p
        match schemaErrorMap with
        | Some f => f issue input d
        | None => d
        end
  end.

(** *** The parse context

    [ctx.common.issues] is an array every [_parse] pushes to, and a user
    callback may throw.  A computation is what it completes with together
    with the issues it pushed, in order. *)

Inductive Exn : Type :=
| ZodError (issues : list ZodIssue)
| Error (msg : string).

Inductive Completion (A : Type) : Type :=
| Return (a : A)
| Throw (e : Exn).
Arguments Return {A} a.
Arguments Throw {A} e.

Definition Parse (A : Type) : Type := (Completion A * list ZodIssue)%type.

Definition ret {A} (a : A) : Parse A := (Return a, []).

Definition bind {A B} (m : Parse A) (f : A -> Parse B) : Parse B :=
  match fst m with
  | Return a => let (b, more) := f a in (b, (snd m ++ more)%list)
  | Throw e => (Throw e, snd m)
  end.

Definition addIssueToContext (schemaErrorMap : option ZodErrorMap)
    (input : value) (p : list PathItem) (issue : IssueData)
    (msg : option string) : Parse unit :=
  (Return tt, [makeIssue schemaErrorMap input p issue msg]).

(** The outcome of a user callback, lifted into the context. *)
Definition call {A} (c : Completion A) : Parse A := (c, []).

Declare Scope parse_scope.
Delimit Scope parse_scope with parse.
Notation "x <- m ;; k" := (bind m (fun x => k))
  (at level 61, m at next level, right associativity) : parse_scope.
Notation "m ;;; k" := (bind m (fun _ => k))
  (at level 61, right associativity) : parse_scope.

(** [xs.map((x, i) => f(i, x))] with the effects in index order. *)
Definition mapi {A B} (f : nat -> A -> Parse B) : nat -> list A -> Parse (list B) :=
  fix go (i : nat) (xs : list A) : Parse (list B) :=
    match xs with
    | [] => ret []
    | x :: rest =>
        (y <- f i x ;; ys <- go (S i) rest ;; ret (y :: ys))%parse
    end.

(** *** Parse results ([SyncParseReturnType]) *)

Inductive ParseStatus : Type := valid | dirty | aborted.

Inductive ParseReturn : Type :=
| INVALID
| Parsed (status : ParseStatus) (v : value).

Definition OK (v : value) : ParseReturn := Parsed valid v.

(** [status.dirty()] *)
Definition mark_dirty (s : ParseStatus) : ParseStatus :=
  match s with valid => dirty | _ => s end.

(** [ParseStatus.mergeArray] *)
Fixpoint mergeArray (status : ParseStatus) (arrayValue : list value)
    (results : list ParseReturn) : ParseReturn :=
  match results with
  | [] => Parsed status (VArray arrayValue)
  | INVALID :: _ => INVALID
  | Parsed aborted _ :: _ => INVALID
  | Parsed dirty v :: rest =>
      mergeArray (mark_dirty status) (arrayValue ++ [v])%list rest
  | Parsed valid v :: rest =>
      mergeArray status (arrayValue ++ [v])%list rest
  end.

(** A key of the shape with its parse result and [key in ctx.data]. *)
Record ParsePair : Type := mkPair {
  pair_key : string;
  pair_value : ParseReturn;
  alwaysSet : bool
}.

Definition isUndefined (v : value) : bool :=
  match v with VUndefined => true | _ => false end.

(** [ParseStatus.mergeObjectSync] *)
Fixpoint mergeObjectSync (status : ParseStatus)
    (finalObject : list (string * value)) (pairs : list ParsePair)
  : ParseReturn :=
  match pairs with
  | [] => Parsed status (VObject finalObject)
  | kv :: rest =>
      match pair_value kv with
      | INVALID => INVALID
      | Parsed aborted _ => INVALID
      | Parsed s v =>
          mergeObjectSync
            (match s with dirty => mark_dirty status | _ => status end)
            (if negb (String.eqb (pair_key kv) "__proto__")
                && (negb (isUndefined v) || alwaysSet kv)
             then set finalObject (pair_key kv) v
             else finalObject)
            rest
      end
  end.

(** *** The e-mail pattern of [z.string().email()]

    zod tests the string against a case-insensitive regular expression:
    the text must not start with a dot nor contain two dots in a row; the
    local part is any run of letters, digits and the characters _ ' + - .
    ending in a letter, a digit or one of _ + - ; after the at-sign come one
    or more labels (a letter or digit, then letters, digits or hyphens), each
    followed by a dot, and a last label of two or more letters. *)

Definition inRange (lo hi : nat) (c : ascii) : bool :=
  let n := nat_of_ascii c in (lo <=? n)%nat && (n <=? hi)%nat.

Definition isLetter (c : ascii) : bool := inRange 65 90 c || inRange 97 122 c.
Definition isAlnum (c : ascii) : bool := isLetter c || inRange 48 57 c.
Definition isOneOf (cs : string) (c : ascii) : bool :=
  existsb (Ascii.eqb c) (list_ascii_of_string cs).

(** The characters of the local part, and those it may end in. *)
Definition isLocalChar (c : ascii) : bool := isAlnum c || isOneOf "_'+-." c.
Definition isLocalEnd (c : ascii) : bool := isAlnum c || isOneOf "_+-" c.

(** [s.split(sep)] on characters: the pieces between the separators. *)
Fixpoint split (sep : ascii) (cs : list ascii) : list (list ascii) :=
  match cs with
  | [] => [[]]
  | c :: rest =>
      if Ascii.eqb c sep then [] :: split sep rest
      else match split sep rest with
           | piece :: pieces => (c :: piece) :: pieces
           | [] => [[c]]
           end
  end.

(** No two consecutive dots (the second look-ahead of the pattern). *)
Fixpoint noDoubleDot (cs : list ascii) : bool :=
  match cs with
  | c :: ((d :: _) as rest) =>
      negb (Ascii.eqb c "." && Ascii.eqb d ".") && noDoubleDot rest
  | _ => true
  end.

(** The local part: not empty, no leading dot, allowed characters only. *)
Definition isLocalPart (cs : list ascii) : bool :=
  match cs, rev cs with
  | first :: _, last :: _ =>
      negb (Ascii.eqb first ".") && forallb isLocalChar cs && isLocalEnd last
  | _, _ => false
  end.

(** One label of the domain. *)
Definition isLabel (cs : list ascii) : bool :=
  match cs with
  | c :: rest => isAlnum c && forallb (fun d => isAlnum d || Ascii.eqb d "-") rest
  | [] => false
  end.

(** The domain: one or more labels, then the top-level label. *)
Definition isDomain (cs : list ascii) : bool :=
  match rev (split "." cs) with
  | tld :: ((_ :: _) as labels) =>
      forallb isLetter tld && (2 <=? List.length tld)%nat && forallb isLabel labels
  | _ => false
  end.

(** [emailRegex.test(s)] *)
Definition emailRegex_test (s : string) : bool :=
  let cs := list_ascii_of_string s in
  match split "@" cs with
  | [localPart; domain] =>
      noDoubleDot cs && isLocalPart localPart && isDomain domain
  | _ => false
  end.

(** *** Schemas *)

Inductive StringCheck : Type :=
| check_min_length (value : Z) (msg : option string)
| check_email (msg : option string).

Inductive NumberCheck : Type :=
| check_int (msg : option string)
| check_min (value : Z) (inclusive : bool) (msg : option string)
| check_max (value : Z) (inclusive : bool) (msg : option string).

(** The schema classes [server.ts] instantiates, with the part of [_def]
    that [_parse] reads.  A refinement is a user function and may throw. *)
Inductive ZodType : Type :=
| ZodString (em : option ZodErrorMap) (checks : list StringCheck)
| ZodNumber (em : option ZodErrorMap) (checks : list NumberCheck)
| ZodBoolean (em : option ZodErrorMap)
| ZodEnum (em : option ZodErrorMap) (values : list string)
| ZodArray (type : ZodType)
| ZodObject (shape : list (string * ZodType))
| ZodOptional (innerType : ZodType)
| ZodDefault (innerType : ZodType) (defaultValue : value)
| ZodEffects (schema : ZodType) (refinement : value -> Completion bool)
    (msg : option string).

(** *** [_parse] *)

(** The loop over [this._def.checks] of [ZodString._parse]. *)
Fixpoint stringChecks (em : option ZodErrorMap) (input : value)
    (p : list PathItem) (s : string) (checks : list StringCheck)
    (status : ParseStatus) : Parse ParseStatus :=
  match checks with
  | [] => ret status
  | check_min_length value msg :: rest =>
      if (Z.of_nat (String.length s) <? value)%Z then
        (addIssueToContext em input p (too_small value "string" true false) msg ;;;
         stringChecks em input p s rest (mark_dirty status))%parse
      else stringChecks em input p s rest status
  | check_email msg :: rest =>
      if negb (emailRegex_test s) then
        (addIssueToContext em input p (invalid_string "email") msg ;;;
         stringChecks em input p s rest (mark_dirty status))%parse
      else stringChecks em input p s rest status
  end.

(** The loop over [this._def.checks] of [ZodNumber._parse]. *)
Fixpoint numberChecks (em : option ZodErrorMap) (input : value)
    (p : list PathItem) (n : number) (checks : list NumberCheck)
    (status : ParseStatus) : Parse ParseStatus :=
  match checks with
  | [] => ret status
  | check_int msg :: rest =>
      if negb (isInteger n) then
        (addIssueToContext em input p (invalid_type "integer" "float") msg ;;;
         numberChecks em input p n rest (mark_dirty status))%parse
      else numberChecks em input p n rest status
  | check_min value inclusive msg :: rest =>
      if (if inclusive then JS.lt n (ofZ value) else JS.le n (ofZ value)) then
        (addIssueToContext em input p (too_small value "number" inclusive false) msg ;;;
         numberChecks em input p n rest (mark_dirty status))%parse
      else numberChecks em input p n rest status
  | check_max value inclusive msg :: rest =>
      if (if inclusive then JS.gt n (ofZ value) else JS.ge n (ofZ value)) then
        (addIssueToContext em input p (too_big value "number" inclusive false) msg ;;;
         numberChecks em input p n rest (mark_dirty status))%parse
      else numberChecks em input p n rest status
  end.

(** The issue every class raises when the parsed type is not its own. *)
Definition wrongType (em : option ZodErrorMap) (input : value)
    (p : list PathItem) (expected : string) : Parse ParseReturn :=
  (addIssueToContext em input p
     (invalid_type expected (typeName (getParsedType input))) None ;;;
   ret INVALID)%parse.

(** [schema._parse({ data: input, path: p, parent: ctx })] *)
Fixpoint _parse (schema : ZodType) (p : list PathItem) (input : value)
    {struct schema} : Parse ParseReturn :=
  match schema with
  | ZodString em checks =>
      match input with
      | VString s =>
          (status <- stringChecks em input p s checks valid ;;
           ret (Parsed status input))%parse
      | _ => wrongType em input p (typeName zpt_string)
      end
  | ZodNumber em checks =>
      match input with
      | VNumber NaN => wrongType em input p (typeName zpt_number)
      | VNumber n =>
          (status <- numberChecks em input p n checks valid ;;
           ret (Parsed status input))%parse
      | _ => wrongType em input p (typeName zpt_number)
      end
  | ZodBoolean em =>
      match input with
      | VBoolean _ => ret (OK input)
      | _ => wrongType em input p (typeName zpt_boolean)
      end
  | ZodEnum em values =>
      match input with
      | VString s =>
          if includes values s then ret (OK input)
          else (addIssueToContext em input p (invalid_enum_value s values) None ;;;
                ret INVALID)%parse
      | _ => wrongType em input p (joinValues values)
      end
  | ZodArray type =>
      match input with
      | VArray items =>
          (results <- mapi (fun i item => _parse type (p ++ [Index i])%list item) 0 items ;;
           ret (mergeArray valid [] results))%parse
      | _ => wrongType None input p (typeName zpt_array)
      end
  | ZodObject shape =>
      match input with
      | VObject props =>
          (pairs <-
             (fix each (fields : list (string * ZodType)) : Parse (list ParsePair) :=
                match fields with
                | [] => ret []
                | (key, keyValidator) :: rest =>
                    (r <- _parse keyValidator (p ++ [Key key])%list (get props key) ;;
                     rs <- each rest ;;
                     ret (mkPair key r (hasKey props key) :: rs))%parse
                end) shape ;;
           ret (mergeObjectSync valid [] pairs))%parse
      | _ => wrongType None input p (typeName zpt_object)
      end
  | ZodOptional innerType =>
      match input with
      | VUndefined => ret (OK VUndefined)
      | _ => _parse innerType p input
      end
  | ZodDefault innerType defaultValue =>
      match input with
      | VUndefined => _parse innerType p defaultValue
      | _ => _parse innerType p input
      end
  | ZodEffects inner refinement msg =>
      (r <- _parse inner p input ;;
       match r with
       | INVALID => ret INVALID
       | Parsed aborted _ => ret INVALID
       | Parsed status v =>
           holds <- call (refinement v) ;;
           if holds then ret (Parsed status v)
           else (addIssueToContext None input p custom msg ;;;
                 ret (Parsed (mark_dirty status) v))
       end)%parse
  end.

(** *** [safeParseAsync] and [parseAsync] *)

Inductive SafeParseReturn : Type :=
| SafeParseSuccess (parsed : value)
| SafeParseError (error : Exn).

(** [handleResult(ctx, result)] *)
Definition handleResult (issues : list ZodIssue) (result : ParseReturn)
  : Completion SafeParseReturn :=
  match result with
  | Parsed valid v => Return (SafeParseSuccess v)
  | _ =>
      match issues with
      | [] => Throw (Error "Validation failed but no issues detected.")
      | _ => Return (SafeParseError (ZodError issues))
      end
  end.

Definition safeParseAsync (schema : ZodType) (input : value)
  : Completion SafeParseReturn :=
  match _parse schema [] input with
  | (Return result, issues) => handleResult issues result
  | (Throw e, _) => Throw e
  end.

(** [schema.parseAsync(input)]: the promise resolves with the parsed value
    or rejects with the error. *)
Definition parseAsync (schema : ZodType) (input : value) : Completion value :=
  match safeParseAsync schema input with
  | Return (SafeParseSuccess v) => Return v
  | Return (SafeParseError e) => Throw e
  | Throw e => Throw e
  end.

(** [error.errors], as [res.json] serialises one issue: the fields of the
    issue by code, its path and its message.  The order of the keys inside
    an entry is not significant. *)
Definition pathItemToJSON (i : PathItem) : value :=
  match i with
  | Key k => VString k
  | Index n => VNumber (ofNat n)
  end.

Definition issueToJSON (i : ZodIssue) : value :=
  VObject
    ([("code", VString (code (data i)))] ++
     match data i with
     | invalid_type expected received =>
         [("expected", VString expected); ("received", VString received)]
     | invalid_enum_value received options =>
         [("received", VString received); ("options", VArray (map VString options))]
     | invalid_string validation => [("validation", VString validation)]
     | too_small minimum type inclusive exact =>
         [("minimum", VNumber (ofZ minimum)); ("type", VString type);
          ("inclusive", VBoolean inclusive); ("exact", VBoolean exact)]
     | too_big maximum type inclusive exact =>
         [("maximum", VNumber (ofZ maximum)); ("type", VString type);
          ("inclusive", VBoolean inclusive); ("exact", VBoolean exact)]
     | custom => []
     end ++
     [("path", VArray (map pathItemToJSON (path i)));
      ("message", VString (message i))])%list.

(** *** The builder methods of the [z] API *)

Module z.

Definition string (params : option RawCreateParams) : ZodType :=
  ZodString (processCreateParams params) [].

Definition number (params : option RawCreateParams) : ZodType :=
  ZodNumber (processCreateParams params) [].

Definition boolean (params : option RawCreateParams) : ZodType :=
  ZodBoolean (processCreateParams params).

Definition enum (values : list String.string) (params : option RawCreateParams)
  : ZodType :=
  ZodEnum (processCreateParams params) values.

Definition array (type : ZodType) : ZodType := ZodArray type.

Definition object (shape : list (String.string * ZodType)) : ZodType :=
  ZodObject shape.

(** [ZodString.min] and [ZodNumber.min]: one more check at the end. *)
Definition min (value : Z) (msg : String.string) (schema : ZodType) : ZodType :=
  match schema with
  | ZodString em checks =>
      ZodString em (checks ++ [check_min_length value (Some msg)])
  | ZodNumber em checks =>
      ZodNumber em (checks ++ [check_min value true (Some msg)])
  | _ => schema
  end.

Definition max (value : Z) (msg : String.string) (schema : ZodType) : ZodType :=
  match schema with
  | ZodNumber em checks =>
      ZodNumber em (checks ++ [check_max value true (Some msg)])
  | _ => schema
  end.

Definition email (msg : String.string) (schema : ZodType) : ZodType :=
  match schema with
  | ZodString em checks => ZodString em (checks ++ [check_email (Some msg)])
  | _ => schema
  end.

Definition int (msg : String.string) (schema : ZodType) : ZodType :=
  match schema with
  | ZodNumber em checks => ZodNumber em (checks ++ [check_int (Some msg)])
  | _ => schema
  end.

Definition optional (schema : ZodType) : ZodType := ZodOptional schema.

Definition default (defaultValue : value) (schema : ZodType) : ZodType :=
  ZodDefault schema defaultValue.

(** [describe] returns a copy that differs in [_def.description] only,
    which [_parse] never reads. *)
Definition describe (description : String.string) (schema : ZodType) : ZodType :=
  schema.

Definition refine (check : value -> Completion bool) (msg : String.string)
    (schema : ZodType) : ZodType :=
  ZodEffects schema check (Some msg).

(** [ZodObject.partial]: every field of the shape made optional. *)
Definition partial (schema : ZodType) : ZodType :=
  match schema with
  | ZodObject shape =>
      ZodObject (map (fun field => (fst field, ZodOptional (snd field))) shape)
  | _ => schema
  end.

End z.

End Zod.

Import Zod.

(* ================================================================== *)
(** ** The Express pipeline of one route *)

Module Express.

Record Request : Type := mkRequest { body : value }.

(** [res.status(statusCode).json(payload)] *)
Record Response : Type := mkResponse { statusCode : Z; payload : value }.

(** What a handler does with [(req, res, next)]: it hands the request on
    with [next()], reports an error with [next(err)], or answers. *)
Inductive Signal : Type :=
| next (req : Request)
| next_error (e : Exn)
| send (res : Response).

Definition RequestHandler : Type := Request -> Signal.

Inductive Outcome : Type :=
| Responded (res : Response)
| Unhandled (e : Exn)
| NotHandled.

(** The handlers of a route run in order; one runs only when every handler
    before it called [next()].  The result lists the handlers that ran. *)
Fixpoint dispatch (stack : list (string * RequestHandler)) (req : Request)
  : list string * Outcome :=
  match stack with
  | [] => ([], NotHandled)
  | (name, handler) :: rest =>
      match handler req with
      | next req' =>
          let (ran, outcome) := dispatch rest req' in (name :: ran, outcome)
      | next_error e => ([name], Unhandled e)
      | send res => ([name], Responded res)
      end
  end.

End Express.

Import Express.

(* ================================================================== *)
(** ** [src/server.ts] *)

Module Server.

Notation "x |> f" := (f x) (at level 71, left associativity, only parsing).

Definition typeErrors (required invalid : option string) : option RawCreateParams :=
  Some {| errorMap := None;
          invalid_type_error := invalid;
          required_error := required |}.

Definition UserSchema : ZodType :=
  z.object
    [ ("name",
       z.string (typeErrors (Some "Name is required.") (Some "Name must be a string."))
       |> z.min 2 "Name must be at least 2 characters long.");
      ("email",
       z.string (typeErrors (Some "Email is required.") (Some "Email must be a string."))
       |> z.email "Invalid email format. Please provide a valid email.");
      ("age",
       z.number (typeErrors None (Some "Age must be a number."))
       |> z.int "Age must be an integer."
       |> z.min 0 "Age must be a non-negative number."
       |> z.optional);
      ("roles",
       z.array
         (z.enum ["admin"; "user"]
            (Some {| errorMap := Some "Role must be 'admin' or 'user'.";
                     invalid_type_error := None;
                     required_error := None |}))
       |> z.default (VArray [VString "user"])
       |> z.describe "User roles (admin or user)") ].

Definition CreateUserDTO : ZodType := UserSchema.

Definition UpdateUserDTO : ZodType := z.partial UserSchema.

Definition GetUserQueryDTO : ZodType :=
  z.object
    [ ("includeRoles",
       z.boolean (typeErrors (Some "IncludeRoles is required.")
                             (Some "IncludeRoles must be a boolean."))
       |> z.default (VBoolean false)
       |> z.refine
            (fun val => Return (match val with VBoolean _ => true | _ => false end))
            "IncludeRoles must be a boolean value.");
      ("page",
       z.number (typeErrors None (Some "Page must be a number."))
       |> z.int "Page must be an integer."
       |> z.min 1 "Page must be at least 1."
       |> z.default (VNumber (ofZ 1)));
      ("limit",
       z.number (typeErrors None (Some "Limit must be a number."))
       |> z.int "Limit must be an integer."
       |> z.min 1 "Limit must be at least 1."
       |> z.max 100 "Limit cannot exceed 100."
       |> z.default (VNumber (ofZ 10))) ].

(** The schema [registry.registerPath] documents for the 400 response. *)
Definition ValidationErrorResponse : ZodType :=
  z.object
    [ ("error", z.string None);
      ("details",
       z.array
         (z.object
            [ ("code", z.string None);
              ("message", z.string None);
              ("path", z.array (z.string None)) ])) ].

(** The documented operation: method, path, request body and the schema of
    each response by status code. *)
Record RouteConfig : Type := mkRoute {
  method : string;
  route : string;
  requestBody : ZodType;
  responses : list (Z * ZodType)
}.

Definition createUserRoute : RouteConfig :=
  {| method := "post";
     route := "/users";
     requestBody := CreateUserDTO;
     responses := [ (201%Z, UserSchema); (400%Z, ValidationErrorResponse) ] |}.

(** The response schema documented for a status code. *)
Fixpoint documented (rs : list (Z * ZodType)) (status : Z) : option ZodType :=
  match rs with
  | [] => None
  | (s, schema) :: rest => if (s =? status)%Z then Some schema else documented rest status
  end.

(** [schema.shape[key]] of an object schema. *)
Definition fieldSchema (schema : ZodType) (key : string) : option ZodType :=
  match schema with
  | ZodObject shape =>
      (fix find (fields : list (string * ZodType)) : option ZodType :=
         match fields with
         | [] => None
         | (k, s) :: rest => if String.eqb k key then Some s else find rest
         end) shape
  | _ => None
  end.

(** The Express middleware for zod validation. *)
Definition validateRequest (schema : ZodType) : RequestHandler := fun req =>
  match parseAsync schema (body req) with
  | Return parsed => next {| body := parsed |}
  | Throw (ZodError errors) =>
      send {| statusCode := 400;
              payload := VObject [ ("error", VString "Validation failed");
                                   ("details", VArray (map issueToJSON errors)) ] |}
  | Throw error => next_error error
  end.

(** The route handler of [POST /users]. *)
Definition createUser : RequestHandler := fun req =>
  let user := body req in
  send {| statusCode := 201; payload := user |}.

(** [app.post('/users', validateRequest(CreateUserDTO), handler)] *)
Definition postUsers : list (string * RequestHandler) :=
  [ ("validateRequest", validateRequest CreateUserDTO);
    ("createUser", createUser) ].

(** A [POST /users] request with the given parsed JSON body. *)
Definition POST_users (payload : value) : list string * Outcome :=
  dispatch postUsers {| body := payload |}.

End Server.

Import Server.

(* ================================================================== *)
(** ** The specification's reading of the schemas

    Section 3 of the specification lists the constraints of each field;
    these definitions follow its words, not the code. *)

Module Spec.

(** A constraint the data model puts on a value. *)
Inductive Constraint : Type :=
| Required
| TypeOf (t : string)
| MinLength (n : nat)
| EmailFormat
| Integer
| Minimum (z : Z)
| Maximum (z : Z)
| OneOf (options : list string).

(** A violated constraint and the place of the value that violates it. *)
Record Violation : Type := mkViolation {
  place : list PathItem;
  broken : Constraint
}.

(** The number is an integer. *)
Definition whole (n : number) : bool :=
  match n with
  | Finite q => Qeq_bool q (inject_Z (Qfloor q))
  | _ => false
  end.

(** [z <= n] and [n <= z]. *)
Definition atLeast (z : Z) (n : number) : bool :=
  match n with
  | Finite q => Qle_bool (inject_Z z) q
  | PosInfinity => true
  | _ => false
  end.

Definition atMost (z : Z) (n : number) : bool :=
  match n with
  | Finite q => Qle_bool q (inject_Z z)
  | NegInfinity => true
  | _ => false
  end.

(** A field is absent when reading it gives [undefined]. *)
Definition absent (props : list (string * value)) (key : string) : bool :=
  isUndefined (get props key).

(** *** User *)

(** name: text, required, minimum length 2. *)
Definition name_violations (v : value) : list Constraint :=
  match v with
  | VUndefined => [Required]
  | VString s => if (2 <=? String.length s)%nat then [] else [MinLength 2]
  | _ => [TypeOf "string"]
  end.

(** email: text, required, must match the e-mail format. *)
Definition email_violations (v : value) : list Constraint :=
  match v with
  | VUndefined => [Required]
  | VString s => if emailRegex_test s then [] else [EmailFormat]
  | _ => [TypeOf "string"]
  end.

(** A numeric field that must be an integer within bounds. *)
Definition integer_violations (lo : Z) (hi : option Z) (n : number)
  : list Constraint :=
  ((if whole n then [] else [Integer]) ++
   (if atLeast lo n then [] else [Minimum lo]) ++
   match hi with
   | Some h => if atMost h n then [] else [Maximum h]
   | None => []
   end)%list.

(** age: integer, optional, at least 0. *)
Definition age_violations (v : value) : list Constraint :=
  match v with
  | VUndefined => []
  | VNumber NaN => [TypeOf "number"]
  | VNumber n => integer_violations 0 None n
  | _ => [TypeOf "number"]
  end.

Definition roleNames : list string := ["admin"; "user"].

Definition role_ok (v : value) : bool :=
  match v with
  | VString s => includes roleNames s
  | _ => false
  end.

(** roles: a sequence of values from the enumeration; one constraint per
    element, placed at the element's index. *)
Fixpoint element_violations (i : nat) (items : list value) : list Violation :=
  match items with
  | [] => []
  | item :: rest =>
      ((if role_ok item then []
        else [mkViolation [Key "roles"; Index i] (OneOf roleNames)]) ++
       element_violations (S i) rest)%list
  end.

Definition roles_violations (v : value) : list Violation :=
  match v with
  | VUndefined => []
  | VArray items => element_violations 0 items
  | _ => [mkViolation [Key "roles"] (TypeOf "array")]
  end.

Definition on (field : string) (cs : list Constraint) : list Violation :=
  map (mkViolation [Key field]) cs.

(** The violated constraints of a payload, in field declaration order and,
    within a field, in constraint order. *)
Definition violations (payload : value) : list Violation :=
  match payload with
  | VObject props =>
      (on "name" (name_violations (get props "name")) ++
       on "email" (email_violations (get props "email")) ++
       on "age" (age_violations (get props "age")) ++
       roles_violations (get props "roles"))%list
  | VUndefined => [mkViolation [] Required]
  | _ => [mkViolation [] (TypeOf "object")]
  end.

(** The payload satisfies every field constraint. *)
Definition name_ok (v : value) : bool :=
  match v with VString s => (2 <=? String.length s)%nat | _ => false end.

Definition email_ok (v : value) : bool :=
  match v with VString s => emailRegex_test s | _ => false end.

Definition age_ok (v : value) : bool :=
  match v with
  | VUndefined => true
  | VNumber n => whole n && atLeast 0 n
  | _ => false
  end.

Definition roles_ok (v : value) : bool :=
  match v with
  | VUndefined => true
  | VArray items => forallb role_ok items
  | _ => false
  end.

Definition valid_user (props : list (string * value)) : bool :=
  name_ok (get props "name") && email_ok (get props "email")
  && age_ok (get props "age") && roles_ok (get props "roles").

Definition defaultRoles : value := VArray [VString "user"].

(** The value of a field after defaults: the default exactly when the
    field is absent. *)
Definition withDefault (default : value) (v : value) : value :=
  match v with VUndefined => default | _ => v end.

(** The normalized user: the declared fields only, [age] when the payload
    has it, [roles] defaulted when absent. *)
Definition normalized (props : list (string * value)) : value :=
  VObject
    ([("name", get props "name"); ("email", get props "email")] ++
     (if hasKey props "age" then [("age", get props "age")] else []) ++
     [("roles", withDefault defaultRoles (get props "roles"))])%list.

Definition declaredFields : list string := ["name"; "email"; "age"; "roles"].

(** *** ListUsersQuery *)

Definition includeRoles_violations (v : value) : list Constraint :=
  match v with
  | VUndefined | VBoolean _ => []
  | _ => [TypeOf "boolean"]
  end.

(** page: integer, at least 1. *)
Definition page_violations (v : value) : list Constraint :=
  match v with
  | VUndefined => []
  | VNumber NaN => [TypeOf "number"]
  | VNumber n => integer_violations 1 None n
  | _ => [TypeOf "number"]
  end.

(** limit: integer between 1 and 100 inclusive. *)
Definition limit_violations (v : value) : list Constraint :=
  match v with
  | VUndefined => []
  | VNumber NaN => [TypeOf "number"]
  | VNumber n => integer_violations 1 (Some 100%Z) n
  | _ => [TypeOf "number"]
  end.

Definition query_violations (payload : value) : list Violation :=
  match payload with
  | VObject props =>
      (on "includeRoles" (includeRoles_violations (get props "includeRoles")) ++
       on "page" (page_violations (get props "page")) ++
       on "limit" (limit_violations (get props "limit")))%list
  | VUndefined => [mkViolation [] Required]
  | _ => [mkViolation [] (TypeOf "object")]
  end.

(** The query satisfies every field constraint. *)
Definition flag_ok (v : value) : bool :=
  match v with
  | VUndefined | VBoolean _ => true
  | _ => false
  end.

Definition integer_ok (lo : Z) (hi : option Z) (v : value) : bool :=
  match v with
  | VUndefined => true
  | VNumber n =>
      whole n && atLeast lo n
      && match hi with Some h => atMost h n | None => true end
  | _ => false
  end.

Definition valid_query (props : list (string * value)) : bool :=
  flag_ok (get props "includeRoles")
  && integer_ok 1 None (get props "page")
  && integer_ok 1 (Some 100%Z) (get props "limit").

Definition normalized_query (props : list (string * value)) : value :=
  VObject
    [ ("includeRoles", withDefault (VBoolean false) (get props "includeRoles"));
      ("page", withDefault (VNumber (ofZ 1)) (get props "page"));
      ("limit", withDefault (VNumber (ofZ 10)) (get props "limit")) ].

(** *** Issues against violations *)

(** The issue reports the violated constraint. *)
Definition explains (c : Constraint) (d : IssueData) : Prop :=
  match c, d with
  | Required, invalid_type _ received => received = "undefined"
  | TypeOf t, invalid_type expected received =>
      expected = t /\ received <> "undefined"
  | MinLength n, too_small minimum type inclusive exact =>
      minimum = Z.of_nat n /\ type = "string" /\ inclusive = true /\ exact = false
  | EmailFormat, invalid_string validation => validation = "email"
  | Integer, invalid_type expected received =>
      expected = "integer" /\ received = "float"
  | Minimum z, too_small minimum type inclusive exact =>
      minimum = z /\ type = "number" /\ inclusive = true /\ exact = false
  | Maximum z, too_big maximum type inclusive exact =>
      maximum = z /\ type = "number" /\ inclusive = true /\ exact = false
  | OneOf options, invalid_enum_value _ opts => opts = options
  | OneOf options, invalid_type expected _ => expected = joinValues options
  | _, _ => False
  end.

Definition reports (i : ZodIssue) (v : Violation) : Prop :=
  path i = place v /\ explains (broken v) (data i).

(** [_parse] agrees with the specification on one value: it does not throw,
    its issues report the violations one for one and in order, and it
    returns the expected value as valid exactly when there is none. *)
Definition refines (schema : ZodType) (p : list PathItem) (input : value)
    (viols : list Violation) (out : value) : Prop :=
  exists r issues,
    _parse schema p input = (Return r, issues) /\
    Forall2 reports issues viols /\
    match r with
    | Parsed valid o => viols = [] /\ o = out
    | Parsed aborted _ => False
    | _ => viols <> []
    end.

(** *** Responses of [POST /users] *)

Definition created (user : value) : list string * Outcome :=
  (["validateRequest"; "createUser"],
   Responded {| statusCode := 201; payload := user |}).

Definition rejected (errors : list ZodIssue) : list string * Outcome :=
  (["validateRequest"],
   Responded {| statusCode := 400;
                payload := VObject [ ("error", VString "Validation failed");
                                     ("details", VArray (map issueToJSON errors)) ] |}).

(** The indices, from [i] on, of the elements outside the enumeration. *)
Fixpoint offending (i : nat) (items : list value) : list nat :=
  match items with
  | [] => []
  | item :: rest =>
      if role_ok item then offending (S i) rest else i :: offending (S i) rest
  end.

(** [v[key]] of any value: [undefined] unless [v] is an object with it. *)
Definition property (v : value) (key : string) : value :=
  match v with
  | VObject props => get props key
  | _ => VUndefined
  end.

(** The names of the properties of a value. *)
Definition ownKeys (v : value) : list string :=
  match v with
  | VObject props => keys props
  | _ => []
  end.

(** The schema accepts the value. *)
Definition accepts (schema : ZodType) (input : value) : bool :=
  match safeParseAsync schema input with
  | Return (SafeParseSuccess _) => true
  | _ => false
  end.

End Spec.

Import Spec.

(* ================================================================== *)
(** ** Concrete requests *)

Module Examples.

Definition al : list (string * value) :=
  [ ("name", VString "Al"); ("email", VString "al@example.com") ].

Definition ann : list (string * value) :=
  [ ("roles", VArray [VString "admin"]); ("age", VNumber (ofZ 30));
    ("email", VString "ann.lee@mail.example.org"); ("name", VString "Ann") ].

Definition wrongTypes : value :=
  VObject [ ("name", VNumber (ofZ 7)); ("age", VString "old") ].

Definition allWrong : value :=
  VObject [ ("name", VString "A"); ("email", VString "bad");
            ("age", VNumber (Finite (-3 # 2)));
            ("roles", VArray [VString "admin"; VString "owner"; VNull]) ].

Definition alNick : list (string * value) :=
  [ ("email", VString "al@example.com"); ("nick", VString "lefty");
    ("name", VString "Al") ].

Definition alOut : value :=
  VObject [ ("name", VString "Al"); ("email", VString "al@example.com");
            ("roles", VArray [VString "user"]) ].

Definition fourRoles : list value :=
  [ VString "user"; VString "owner"; VString "admin"; VString "root" ].

Definition twoBadRoles : value :=
  VObject [ ("name", VString "Bo"); ("email", VString "bo@x.com");
            ("roles", VArray [VString "owner"; VString "root"]) ].

Definition secondRoleBad : value :=
  VObject [ ("name", VString "Bo"); ("email", VString "bo@x.com");
            ("roles", VArray [VString "admin"; VString "owner"]) ].

Definition bo : list (string * value) :=
  [ ("name", VString "Bo"); ("email", VString "bo@x.com");
    ("roles", VArray [VString "owner"]) ].


(** A schema whose refinement throws, and a request it is applied to. *)
Definition throwing : ZodType :=
  z.refine (fun _ => Throw (Error "lookup failed")) "Unknown flag."
    (z.boolean None).

Definition flagRequest : Request := {| body := VBoolean true |}.

Definition secondPage : list (string * value) :=
  [ ("page", VNumber (ofZ 2)); ("limit", VNumber (ofZ 100)) ].

End Examples.

(* ================================================================== *)
(** ** What the rest of [server.ts] promises *)

Module Contract.

(** The message [server.ts] declares for a constraint of a user field;
    where it declares none, the message of zod's default error map. *)
Definition field_wording (field : string) (c : Constraint) (d : IssueData)
  : string :=
  let default := defaultErrorMap d VUndefined EmptyString in
  if String.eqb field "name" then
    match c with
    | Required => "Name is required."
    | TypeOf _ => "Name must be a string."
    | MinLength _ => "Name must be at least 2 characters long."
    | _ => default
    end
  else if String.eqb field "email" then
    match c with
    | Required => "Email is required."
    | TypeOf _ => "Email must be a string."
    | EmailFormat => "Invalid email format. Please provide a valid email."
    | _ => default
    end
  else if String.eqb field "age" then
    match c with
    | TypeOf _ => "Age must be a number."
    | Integer => "Age must be an integer."
    | Minimum _ => "Age must be a non-negative number."
    | _ => default
    end
  else if String.eqb field "roles" then
    match c with
    | OneOf _ => "Role must be 'admin' or 'user'."
    | _ => default
    end
  else default.

Definition wording (v : Violation) (d : IssueData) : string :=
  match place v with
  | Key field :: _ => field_wording field (broken v) d
  | _ => defaultErrorMap d VUndefined EmptyString
  end.

(** The issue reports the violation in the words of [server.ts]. *)
Definition worded (i : ZodIssue) (v : Violation) : Prop :=
  reports i v /\ message i = wording v (data i).

(** A path made of property names only. *)
Definition isKey (i : PathItem) : bool :=
  match i with Key _ => true | Index _ => false end.

Definition keyOnly (p : list PathItem) : bool := forallb isKey p.

(** The body [validateRequest] sends with status 400. *)
Definition errorBody (errors : list ZodIssue) : value :=
  VObject [ ("error", VString "Validation failed");
            ("details", VArray (map issueToJSON errors)) ].

(** An entry of [details] as the documented schema reads it. *)
Definition documentedEntry (i : ZodIssue) : value :=
  VObject [ ("code", VString (code (data i)));
            ("message", VString (message i));
            ("path", VArray (map pathItemToJSON (path i))) ].

(** No violation lies inside the [roles] array of the payload. *)
Definition rolesElementsFine (payload : value) : bool :=
  match payload with
  | VObject props =>
      match get props "roles" with
      | VArray items => forallb role_ok items
      | _ => true
      end
  | _ => true
  end.

(** *** UpdateUserRequest: every field optional *)

(** A constraint list that applies only when the field is there. *)
Definition whenPresent (f : value -> list Constraint) (v : value)
  : list Constraint :=
  match v with
  | VUndefined => []
  | _ => f v
  end.

Definition update_violations (payload : value) : list Violation :=
  match payload with
  | VObject props =>
      (on "name" (whenPresent name_violations (get props "name")) ++
       on "email" (whenPresent email_violations (get props "email")) ++
       on "age" (age_violations (get props "age")) ++
       roles_violations (get props "roles"))%list
  | VUndefined => [mkViolation [] Required]
  | _ => [mkViolation [] (TypeOf "object")]
  end.

Definition valid_update (props : list (string * value)) : bool :=
  (absent props "name" || name_ok (get props "name"))
  && (absent props "email" || email_ok (get props "email"))
  && age_ok (get props "age") && roles_ok (get props "roles").

(** The declared properties the payload has, in declaration order. *)
Definition picked (props : list (string * value)) : value :=
  VObject
    (flat_map (fun key => if hasKey props key then [(key, get props key)] else [])
              declaredFields).

(** Two payloads with the same declared properties. *)
Definition sameDeclared (a b : list (string * value)) : Prop :=
  forall key, In key declaredFields ->
    get a key = get b key /\ hasKey a key = hasKey b key.

Definition queryFields : list string := ["includeRoles"; "page"; "limit"].

(** The message [server.ts] declares for a constraint of a query field. *)
Definition query_field_wording (field : string) (c : Constraint) (d : IssueData)
  : string :=
  let default := defaultErrorMap d VUndefined EmptyString in
  if String.eqb field "includeRoles" then
    match c with
    | TypeOf _ => "IncludeRoles must be a boolean."
    | _ => default
    end
  else if String.eqb field "page" then
    match c with
    | TypeOf _ => "Page must be a number."
    | Integer => "Page must be an integer."
    | Minimum _ => "Page must be at least 1."
    | _ => default
    end
  else if String.eqb field "limit" then
    match c with
    | TypeOf _ => "Limit must be a number."
    | Integer => "Limit must be an integer."
    | Minimum _ => "Limit must be at least 1."
    | Maximum _ => "Limit cannot exceed 100."
    | _ => default
    end
  else default.

Definition query_wording (v : Violation) (d : IssueData) : string :=
  match place v with
  | Key field :: _ => query_field_wording field (broken v) d
  | _ => defaultErrorMap d VUndefined EmptyString
  end.

Definition query_worded (i : ZodIssue) (v : Violation) : Prop :=
  reports i v /\ message i = query_wording v (data i).

(** The constraints the query schema declares, by field. *)
Definition queryConstraints : list (string * Constraint) :=
  [ ("includeRoles", TypeOf "boolean");
    ("page", TypeOf "number"); ("page", Integer); ("page", Minimum 1);
    ("limit", TypeOf "number"); ("limit", Integer); ("limit", Minimum 1);
    ("limit", Maximum 100) ].

(** The messages [server.ts] declares for [includeRoles] beside the type
    error: the required error and the message of the refinement. *)
Definition includeRolesRequired : string := "IncludeRoles is required.".
Definition includeRolesRefined : string := "IncludeRoles must be a boolean value.".

End Contract.

Import Contract.

Module Samples.

Definition onlyAge : list (string * value) := [ ("age", VNumber (ofZ 41)) ].

Definition shortName : list (string * value) := [ ("name", VString "A") ].

Definition alReordered : list (string * value) :=
  [ ("email", VString "al@example.com"); ("nick", VString "lefty");
    ("name", VString "Al") ].

Definition stringPage : list (string * value) :=
  [ ("page", VString "2"); ("limit", VNumber (ofZ 500)) ].

Definition nameIssue : ZodIssue :=
  {| data := too_small 2 "string" true false;
     path := [Key "name"];
     message := "Name must be at least 2 characters long." |}.

Definition roleIssue : ZodIssue :=
  {| data := invalid_enum_value "owner" ["admin"; "user"];
     path := [Key "roles"; Index 0];
     message := "Role must be 'admin' or 'user'." |}.

End Samples.

(* ================================================================== *)
(** ** The e-mail pattern on samples *)

Example emailRegex_accepts :
  map emailRegex_test
    [ "al@example.com"; "bo@x.com"; "A.b_c+d@Mail-1.Example.ORG";
      "o'neil@pub.ie"; "x@y-.io" ]
  = [ true; true; true; true; true ].
Proof. reflexivity. Qed.

Example emailRegex_rejects :
  map emailRegex_test
    [ "bad"; EmptyString; "a@b.c"; ".a@b.com"; "a.@b.com"; "a..b@c.com";
      "a@-b.com"; "a@b@c.com"; "a@b.c0m"; "a b@c.com"; "@c.com"; "a@com" ]
  = [ false; false; false; false; false; false;
      false; false; false; false; false; false ].
Proof. reflexivity. Qed.

(* ================================================================== *)
(** ** Numbers and lengths: the code's tests against the specification's *)

Lemma isInteger_whole (n : number) : isInteger n = whole n.
Proof.
  destruct n as [[a d] | | |]; cbn; trivial.
  unfold Qeq_bool, Qfloor; cbn.
  rewrite Z.mul_1_r.
  destruct (Z.eqb_spec (a mod Z.pos d) 0) as [E | E];
    destruct (Z.eqb_spec a (a / Z.pos d * Z.pos d)) as [F | F]; trivial.
  - exfalso. apply F. pose proof (Z.div_mod a (Z.pos d)). lia.
  - exfalso. apply E. rewrite F. apply Z.mod_mul. lia.
Qed.

Lemma lt_atLeast (n : number) (z : Z) :
  n <> NaN -> JS.lt n (ofZ z) = negb (atLeast z n).
Proof.
  destruct n as [[a d] | | |]; cbn; trivial; try congruence.
  intros _. unfold Qle_bool; cbn.
  destruct (Z.ltb_spec (a * 1) (z * Z.pos d));
    destruct (Z.leb_spec (z * Z.pos d) (a * 1)); trivial; lia.
Qed.

Lemma gt_atMost (n : number) (z : Z) :
  n <> NaN -> JS.gt n (ofZ z) = negb (atMost z n).
Proof.
  destruct n as [[a d] | | |]; cbn; trivial; try congruence.
  intros _. unfold Qle_bool; cbn.
  destruct (Z.ltb_spec (z * Z.pos d) (a * 1));
    destruct (Z.leb_spec (a * 1) (z * Z.pos d)); trivial; lia.
Qed.

Lemma length_below_2 (s : string) :
  (Z.of_nat (String.length s) <? 2)%Z = negb (2 <=? String.length s)%nat.
Proof.
  destruct (Z.ltb_spec (Z.of_nat (String.length s)) 2);
    destruct (Nat.leb_spec 2 (String.length s)); trivial; lia.
Qed.

(* ================================================================== *)
(** ** The fields of the user schema *)

(** Closes a [refines] goal whose parse has been computed. *)
Ltac refines_here :=
  eexists _, _; split; [reflexivity | ];
  split;
  [ repeat constructor; cbn; auto; try discriminate
  | cbn; intuition congruence ].

(** Replaces the code's numeric tests by the specification's. *)
Ltac spec_tests n :=
  rewrite ?isInteger_whole, ?lt_atLeast, ?gt_atMost by discriminate;
  unfold integer_violations;
  destruct (whole n); try destruct (atLeast _ n); try destruct (atMost _ n).

Lemma name_field (S : ZodType) (v : value) :
  fieldSchema UserSchema "name" = Some S ->
  refines S [Key "name"] v (on "name" (name_violations v)) v.
Proof.
  intros E; injection E as <-.
  destruct v as [ | | b | n | s | items | props ];
    try (destruct n); try refines_here.
  unfold refines; cbn -[Nat.leb Z.ltb Z.of_nat String.length].
  rewrite length_below_2.
  destruct (2 <=? String.length s)%nat; refines_here.
Qed.

Lemma email_field (S : ZodType) (v : value) :
  fieldSchema UserSchema "email" = Some S ->
  refines S [Key "email"] v (on "email" (email_violations v)) v.
Proof.
  intros E; injection E as <-.
  destruct v as [ | | b | n | s | items | props ];
    try (destruct n); try refines_here.
  unfold refines; cbn -[emailRegex_test].
  destruct (emailRegex_test s); refines_here.
Qed.

Lemma age_field (S : ZodType) (v : value) :
  fieldSchema UserSchema "age" = Some S ->
  refines S [Key "age"] v (on "age" (age_violations v)) v.
Proof.
  intros E; injection E as <-.
  destruct v as [ | | b | n | s | items | props ]; try refines_here.
  destruct n as [q | | | ]; try refines_here.
  all: unfold refines; cbn -[isInteger JS.lt whole atLeast].
  all: spec_tests (Finite q).

  all: refines_here.
Qed.

(** One element of [roles] against the enumeration. *)
Lemma role_element (e : ZodType) (d : value) (i : nat) (item : value) :
  fieldSchema UserSchema "roles" = Some (ZodDefault (ZodArray e) d) ->
  exists issues,
    _parse e [Key "roles"; Index i] item
      = (Return (if role_ok item then OK item else INVALID), issues) /\
    Forall2 reports issues
      (if role_ok item then []
       else [mkViolation [Key "roles"; Index i] (OneOf roleNames)]).
Proof.
  intros E; injection E as <- <-.
  destruct item as [ | | b | n | s | items | props ];
    try (destruct n);
    try (eexists; split; [reflexivity | repeat constructor; cbn; auto]).
  unfold role_ok, roleNames. cbn -[includes].
  destruct (includes ["admin"; "user"] s);
    eexists; (split; [reflexivity | repeat constructor; cbn; auto]).
Qed.

(** The elements of [roles], from index [i] on. *)
Lemma role_elements (e : ZodType) (d : value) (items : list value) :
  fieldSchema UserSchema "roles" = Some (ZodDefault (ZodArray e) d) ->
  forall i, exists issues,
    mapi (fun j item => _parse e ([Key "roles"] ++ [Index j]) item) i items
      = (Return (map (fun item => if role_ok item then OK item else INVALID) items),
         issues) /\
    Forall2 reports issues (element_violations i items).
Proof.
  intros E. induction items as [ | item rest IH ]; intros i.
  - exists []. split; [reflexivity | constructor].
  - destruct (role_element e d i item E) as (here & Ehere & Fhere).
    destruct (IH (Datatypes.S i)) as (there & Ethere & Fthere).
    exists (here ++ there)%list. split.
    + cbn [mapi]. change ([Key "roles"] ++ [Index i])%list with [Key "roles"; Index i].
      rewrite Ehere. unfold bind at 1. cbn [fst snd].
      fold (@mapi value ParseReturn). 
      rewrite Ethere. cbn. now rewrite app_nil_r.
    + cbn [element_violations]. now apply Forall2_app.
Qed.

Lemma mergeArray_roles (items : list value) :
  forall status acc,
    mergeArray status acc
      (map (fun item => if role_ok item then OK item else INVALID) items)
    = if forallb role_ok items then Parsed status (VArray (acc ++ items))
      else INVALID.
Proof.
  induction items as [ | item rest IH ]; intros status acc; cbn.
  - now rewrite app_nil_r.
  - destruct (role_ok item); cbn; trivial.
    rewrite IH, <- app_assoc. reflexivity.
Qed.

Lemma element_violations_nil (items : list value) :
  forall i, element_violations i items = [] <-> forallb role_ok items = true.
Proof.
  induction items as [ | item rest IH ]; intros i; cbn; [tauto | ].
  destruct (role_ok item); cbn; [apply IH | split; discriminate].
Qed.

Lemma roles_field (S : ZodType) (v : value) :
  fieldSchema UserSchema "roles" = Some S ->
  refines S [Key "roles"] v (roles_violations v) (withDefault defaultRoles v).
Proof.
  intros E.
  assert (exists e d, S = ZodDefault (ZodArray e) d) as (e & d & ->)
    by (injection E as <-; eexists _, _; reflexivity).
  destruct v as [ | | b | n | s | items | props ];
    try (destruct n);
    try (injection E as <- <-; refines_here).
  destruct (role_elements e d items E 0) as (issues & Eitems & Fitems).
  unfold refines. cbn [_parse]. rewrite Eitems. cbn [bind fst snd ret].
  rewrite mergeArray_roles. cbn [roles_violations app].
  eexists _, issues. split; [rewrite app_nil_r; reflexivity | ].
  split; [assumption | ].
  destruct (forallb role_ok items) eqn:Hall; cbn.
  - split; [now apply element_violations_nil | reflexivity].
  - intros Hnil. apply element_violations_nil in Hnil. congruence.
Qed.

(* ================================================================== *)
(** ** The user schema as a whole *)

Lemma get_hasKey (props : list (string * value)) (key : string) :
  hasKey props key = false -> get props key = VUndefined.
Proof.
  induction props as [ | [k v] rest IH ]; cbn; trivial.
  destruct (String.eqb k key); [discriminate | exact IH].
Qed.

Lemma set_when_defined (props : list (string * value)) (key : string) :
  negb (isUndefined (get props key)) || hasKey props key = hasKey props key.
Proof.
  destruct (hasKey props key) eqn:E; [apply orb_true_r | ].
  now rewrite (get_hasKey _ _ E).
Qed.

Lemma name_defined (v : value) :
  on "name" (name_violations v) = [] -> isUndefined v = false.
Proof. destruct v; cbn; trivial; discriminate. Qed.

Lemma email_defined (v : value) :
  on "email" (email_violations v) = [] -> isUndefined v = false.
Proof. destruct v; cbn; trivial; discriminate. Qed.

Lemma roles_defined (v : value) :
  roles_violations v = [] -> isUndefined (withDefault defaultRoles v) = false.
Proof. destruct v; cbn; trivial; discriminate. Qed.

(** A concatenation with a non-empty part is not empty. *)
Ltac some_violation :=
  let H := fresh "Hnil" in
  intros H; repeat (apply app_eq_nil in H; destruct H as [? H]); contradiction.

(** Case analysis on one field's result while merging the object. *)
Ltac merge_field r M :=
  destruct r as [ | [ | | ] ? ];
  cbn [mergeObjectSync pair_value pair_key alwaysSet mark_dirty] in *;
  try contradiction; try some_violation.

Lemma user_object (props : list (string * value)) :
  refines UserSchema [] (VObject props) (violations (VObject props))
    (normalized props).
Proof.
  unfold refines. cbn [_parse UserSchema z.object app].
  match goal with |- context [_parse ?S [Key "name"] ?v] =>
    destruct (name_field S v eq_refl) as (r1 & i1 & E1 & F1 & M1) end.
  match goal with |- context [_parse ?S [Key "email"] ?v] =>
    destruct (email_field S v eq_refl) as (r2 & i2 & E2 & F2 & M2) end.
  match goal with |- context [_parse ?S [Key "age"] ?v] =>
    destruct (age_field S v eq_refl) as (r3 & i3 & E3 & F3 & M3) end.
  match goal with |- context [_parse ?S [Key "roles"] ?v] =>
    destruct (roles_field S v eq_refl) as (r4 & i4 & E4 & F4 & M4) end.
  rewrite E1, E2, E3, E4. cbn [bind fst snd ret].
  eexists _, _. split; [reflexivity | ]. split.
  - rewrite !app_nil_r. cbn [violations].
    repeat apply Forall2_app; assumption.
  - cbn [violations].
    merge_field r1 M1; merge_field r2 M2; merge_field r3 M3; merge_field r4 M4.
    destruct M1 as [N1 ->], M2 as [N2 ->], M3 as [N3 ->], M4 as [N4 ->].
    split; [now rewrite N1, N2, N3, N4 | ].
    rewrite (name_defined _ N1), (email_defined _ N2), (roles_defined _ N4).
    rewrite set_when_defined. unfold normalized.
    destruct (hasKey props "age"); reflexivity.
Qed.

Lemma user_not_object (payload : value) :
  (forall props, payload <> VObject props) ->
  refines UserSchema [] payload (violations payload) VUndefined.
Proof.
  intros Hno. destruct payload as [ | | b | n | s | items | props ];
    try (destruct n); try refines_here.
  now elim (Hno props).
Qed.

(* ================================================================== *)
(** ** [POST /users] *)

Lemma reports_same_length (issues : list ZodIssue) (viols : list Violation) :
  Forall2 reports issues viols -> List.length issues = List.length viols.
Proof. induction 1; cbn; congruence. Qed.

Lemma reports_same_places (issues : list ZodIssue) (viols : list Violation) :
  Forall2 reports issues viols -> map path issues = map place viols.
Proof.
  induction 1 as [ | i v issues viols [Hpath _] _ IH ]; cbn; congruence.
Qed.

(** What [_parse] does with any payload: it never throws, and its issues
    are the violations. *)
Lemma user_parse (payload : value) :
  exists r issues,
    _parse UserSchema [] payload = (Return r, issues) /\
    Forall2 reports issues (violations payload) /\
    match r with
    | Parsed valid o =>
        violations payload = [] /\
        exists props, payload = VObject props /\ o = normalized props
    | Parsed aborted _ => False
    | _ => violations payload <> []
    end.
Proof.
  destruct payload as [ | | b | n | s | items | props ].
  7: { destruct (user_object props) as (r & issues & E & F & M).
       exists r, issues. repeat split; trivial.
       destruct r as [ | [ | | ] o ]; trivial.
       destruct M as [N ->]. split; [exact N | now exists props]. }
  all: match goal with |- context [_parse _ _ ?v] =>
         destruct (user_not_object v) as (r & issues & E & F & M);
           [ discriminate | ];
         exists r, issues; repeat split; trivial;
         destruct r as [ | [ | | ] o ]; trivial;
         destruct M as [N _]; discriminate N
       end.
Qed.

Lemma post_users_created (props : list (string * value)) :
  violations (VObject props) = [] ->
  POST_users (VObject props) = created (normalized props).
Proof.
  intros Hnone.
  destruct (user_parse (VObject props)) as (r & issues & E & F & M).
  rewrite Hnone in F. inversion F; subst.
  unfold POST_users, postUsers, dispatch, validateRequest, CreateUserDTO,
    parseAsync, safeParseAsync; cbn [body].
  rewrite E.
  destruct r as [ | [ | | ] o ]; try contradiction.
  cbn. destruct M as [_ (props' & Eprops & ->)].
  injection Eprops as <-. reflexivity.
Qed.

Lemma post_users_rejected (payload : value) :
  violations payload <> [] ->
  exists errors,
    Forall2 reports errors (violations payload) /\
    parseAsync CreateUserDTO payload = Throw (ZodError errors) /\
    POST_users payload = rejected errors.
Proof.
  intros Hsome.
  destruct (user_parse payload) as (r & issues & E & F & M).
  exists issues. split; [exact F | ].
  assert (Hissues : issues <> []).
  { intros ->. inversion F. congruence. }
  unfold POST_users, postUsers, dispatch, validateRequest, CreateUserDTO,
    parseAsync, safeParseAsync; cbn [body].
  rewrite E.
  destruct r as [ | [ | | ] o ]; try contradiction;
    try (now elim Hsome);
    destruct issues; try congruence; split; reflexivity.
Qed.

Lemma name_ok_iff (v : value) : name_ok v = true <-> name_violations v = [].
Proof.
  destruct v as [ | | ? | ? | s | ? | ? ]; cbn -[Nat.leb];
    try (split; discriminate).
  destruct (2 <=? String.length s)%nat; split; trivial; discriminate.
Qed.

Lemma email_ok_iff (v : value) : email_ok v = true <-> email_violations v = [].
Proof.
  destruct v as [ | | ? | ? | s | ? | ? ]; cbn -[emailRegex_test];
    try (split; discriminate).
  destruct (emailRegex_test s); split; trivial; discriminate.
Qed.

Lemma age_ok_iff (v : value) : age_ok v = true <-> age_violations v = [].
Proof.
  destruct v as [ | | ? | n | ? | ? | ? ]; cbn -[whole atLeast];
    try (split; discriminate); try tauto.
  destruct n as [q | | | ]; unfold integer_violations; cbn -[whole atLeast];
    try (split; discriminate).
  destruct (whole (Finite q)), (atLeast 0 (Finite q)); cbn;
    split; trivial; discriminate.
Qed.

Lemma roles_ok_iff (v : value) : roles_ok v = true <-> roles_violations v = [].
Proof.
  destruct v as [ | | ? | ? | ? | items | ? ]; cbn;
    try (split; discriminate); try tauto.
  symmetry. apply element_violations_nil.
Qed.

Lemma app_nil_iff {A} (xs ys : list A) :
  (xs ++ ys)%list = [] <-> xs = [] /\ ys = [].
Proof.
  split; [apply app_eq_nil | intros [-> ->]; reflexivity].
Qed.

Lemma on_nil (field : string) (cs : list Constraint) :
  on field cs = [] <-> cs = [].
Proof. destruct cs; cbn; split; trivial; discriminate. Qed.

Lemma valid_user_no_violation (props : list (string * value)) :
  valid_user props = true <-> violations (VObject props) = [].
Proof.
  unfold valid_user, violations.
  rewrite !andb_true_iff, !app_nil_iff, !on_nil.
  rewrite name_ok_iff, email_ok_iff, age_ok_iff, roles_ok_iff. tauto.
Qed.

Lemma accepts_user_iff (payload : value) :
  accepts UserSchema payload = true <-> violations payload = [].
Proof.
  unfold accepts, safeParseAsync.
  destruct (user_parse payload) as (r & issues & E & F & M). rewrite E.
  destruct r as [ | [ | | ] o ]; try contradiction; cbn.
  - destruct issues; split; congruence.
  - tauto.
  - destruct issues; split; congruence.
Qed.

Lemma parse_valid_user (props : list (string * value)) :
  violations (VObject props) = [] ->
  parseAsync UserSchema (VObject props) = Return (normalized props).
Proof.
  intros Hnone. unfold parseAsync, safeParseAsync.
  destruct (user_parse (VObject props)) as (r & issues & E & F & M). rewrite E.
  destruct r as [ | [ | | ] o ]; try contradiction; try (now elim M).
  destruct M as [_ (props' & [= <-] & ->)]. reflexivity.
Qed.

Lemma get_defined_hasKey (props : list (string * value)) (key : string) :
  get props key <> VUndefined -> hasKey props key = true.
Proof.
  intros H. destruct (hasKey props key) eqn:E; trivial.
  now elim H; apply get_hasKey.
Qed.

Lemma issueToJSON_fields (issue : ZodIssue) :
  property (issueToJSON issue) "code" = VString (code (data issue)) /\
  property (issueToJSON issue) "message" = VString (message issue) /\
  property (issueToJSON issue) "path" = VArray (map pathItemToJSON (path issue)).
Proof. destruct issue as [[] p m]; cbn; auto. Qed.

(** The normalized user is itself a valid payload, already normalized. *)
Lemma normalized_is_normal (props : list (string * value)) :
  valid_user props = true ->
  exists props',
    normalized props = VObject props' /\
    valid_user props' = true /\
    normalized props' = normalized props.
Proof.
  unfold valid_user. rewrite !andb_true_iff. intros [[[Hn He] Ha] Hr].
  eexists. split; [reflexivity | ].
  unfold normalized, valid_user.
  destruct (hasKey props "age") eqn:Hage; cbn;
    rewrite Hn, He, ?Ha; cbn;
    destruct (get props "roles"); cbn in *; try discriminate;
    rewrite ?Hr; auto.
Qed.

(* ================================================================== *)
(** ** The claims *)

(** C1: every [POST /users] payload that satisfies all field constraints
    passes the middleware, the handler runs and answers 201 with the
    normalized payload, [roles] being the default exactly when the field was
    absent; the body [{"name":"Al","email":"al@example.com"}] gives 201 with
    [{"name":"Al","email":"al@example.com","roles":["user"]}]. *)
Theorem C1_valid_payload_created :
  (forall props,
     valid_user props = true ->
     POST_users (VObject props)
     = (["validateRequest"; "createUser"],
        Responded {| statusCode := 201; payload := normalized props |})) /\
  POST_users (VObject [("name", VString "Al"); ("email", VString "al@example.com")])
  = (["validateRequest"; "createUser"],
     Responded
       {| statusCode := 201;
          payload := VObject [ ("name", VString "Al");
                               ("email", VString "al@example.com");
                               ("roles", VArray [VString "user"]) ] |}).
Proof.
  split; [ | reflexivity ].
  intros props Hvalid. apply post_users_created.
  now apply valid_user_no_violation.
Qed.

Lemma C1_witness :
  valid_user Examples.ann = true /\
  POST_users (VObject Examples.ann)
  = (["validateRequest"; "createUser"],
     Responded {| statusCode := 201; payload := normalized Examples.ann |}).
Proof.
  split; [ reflexivity | apply (proj1 C1_valid_payload_created); reflexivity ].
Defined.



(** C3: a payload that violates constraints gets 400 with exactly one entry
    of [details] per violated constraint, in the order of the fields (name,
    email, age, roles) and of the constraints within a field; the body
    [{"name":"A","email":"bad"}] gets two entries, the too short name and
    then the invalid e-mail. *)
Theorem C3_one_entry_per_violation :
  (forall payload,
     violations payload <> [] ->
     exists errors,
       POST_users payload = rejected errors /\
       Forall2 reports errors (violations payload) /\
       List.length errors = List.length (violations payload)) /\
  POST_users (VObject [("name", VString "A"); ("email", VString "bad")])
  = rejected
      [ {| data := too_small 2 "string" true false;
           path := [Key "name"];
           message := "Name must be at least 2 characters long." |};
        {| data := invalid_string "email";
           path := [Key "email"];
           message := "Invalid email format. Please provide a valid email." |} ].
Proof.
  split; [ | reflexivity ].
  intros payload Hsome.
  destruct (post_users_rejected payload Hsome) as (errors & F & _ & E).
  exists errors. repeat split; trivial. now apply reports_same_length.
Qed.

Lemma C3_witness :
  List.length (violations Examples.allWrong) = 6%nat /\
  exists errors,
    POST_users Examples.allWrong = rejected errors /\
    Forall2 reports errors (violations Examples.allWrong) /\
    List.length errors = List.length (violations Examples.allWrong).
Proof.
  split; [ reflexivity
         | apply (proj1 C3_one_entry_per_violation); vm_compute; discriminate ].
Defined.

(** C4: the boundaries of the user schema.  Among payloads whose other
    fields are valid, [age = 0] is accepted; [age = -1] is rejected whatever
    the other fields are, with an entry for [age]; absent [roles] become
    [["user"]]; and [roles = []] is accepted and stays empty. *)
Theorem C4_boundaries :
  (forall props,
     name_ok (get props "name") = true ->
     email_ok (get props "email") = true ->
     roles_ok (get props "roles") = true ->
     get props "age" = VNumber (ofZ 0) ->
     exists user,
       POST_users (VObject props) = created user /\
       property user "age" = VNumber (ofZ 0)) /\
  (forall props,
     get props "age" = VNumber (ofZ (-1)) ->
     exists errors,
       POST_users (VObject props) = rejected errors /\
       In [Key "age"] (map path errors)) /\
  (forall props,
     name_ok (get props "name") = true ->
     email_ok (get props "email") = true ->
     age_ok (get props "age") = true ->
     get props "roles" = VUndefined ->
     exists user,
       POST_users (VObject props) = created user /\
       property user "roles" = VArray [VString "user"]) /\
  (forall props,
     name_ok (get props "name") = true ->
     email_ok (get props "email") = true ->
     age_ok (get props "age") = true ->
     get props "roles" = VArray [] ->
     exists user,
       POST_users (VObject props) = created user /\
       property user "roles" = VArray []).
Proof.
  repeat split.
  - intros props Hn He Hr Ha. exists (normalized props). split.
    + apply post_users_created, valid_user_no_violation.
      unfold valid_user. now rewrite Hn, He, Hr, Ha.
    + unfold normalized.
      rewrite (get_defined_hasKey props "age") by (rewrite Ha; discriminate).
      cbn. exact Ha.
  - intros props Ha.
    assert (Hsome : violations (VObject props) <> []).
    { cbn [violations]. rewrite Ha. intros H.
      apply app_eq_nil in H as [_ H]. apply app_eq_nil in H as [_ H].
      apply app_eq_nil in H as [H _]. discriminate H. }
    destruct (post_users_rejected _ Hsome) as (errors & F & _ & E).
    exists errors. split; [exact E | ].
    rewrite (reports_same_places _ _ F). cbn [violations]. rewrite Ha.
    rewrite !map_app. apply in_or_app; right. apply in_or_app; right.
    apply in_or_app; left. cbn. auto.
  - intros props Hn He Ha Hr. exists (normalized props). split.
    + apply post_users_created, valid_user_no_violation.
      unfold valid_user. now rewrite Hn, He, Ha, Hr.
    + unfold normalized. rewrite Hr. destruct (hasKey props "age"); reflexivity.
  - intros props Hn He Ha Hr. exists (normalized props). split.
    + apply post_users_created, valid_user_no_violation.
      unfold valid_user. now rewrite Hn, He, Ha, Hr.
    + unfold normalized. rewrite Hr. destruct (hasKey props "age"); reflexivity.
Qed.

Lemma C4_witness :
  (exists user,
     POST_users (VObject (Examples.al ++ [("age", VNumber (ofZ 0))])) = created user /\
     property user "age" = VNumber (ofZ 0)) /\
  (exists errors,
     POST_users (VObject (Examples.al ++ [("age", VNumber (ofZ (-1)))]))
     = rejected errors /\
     In [Key "age"] (map path errors)) /\
  (exists user,
     POST_users (VObject Examples.al) = created user /\
     property user "roles" = VArray [VString "user"]) /\
  (exists user,
     POST_users (VObject (Examples.al ++ [("roles", VArray [])])) = created user /\
     property user "roles" = VArray []).
Proof.
  destruct C4_boundaries as (Hzero & Hminus & Habsent & Hempty).
  repeat split.
  - apply Hzero; reflexivity.
  - apply Hminus; reflexivity.
  - apply Habsent; reflexivity.
  - apply Hempty; reflexivity.
Defined.

(** C5: validation is idempotent on its output: when the user schema
    accepts a payload, parsing the value it returned succeeds again and
    returns that same value. *)
Theorem C5_parse_idempotent (payload out : value) :
  parseAsync UserSchema payload = Return out ->
  parseAsync UserSchema out = Return out.
Proof.
  intros Hparse.
  destruct (user_parse payload) as (r & issues & E & F & M).
  unfold parseAsync, safeParseAsync in Hparse. rewrite E in Hparse.
  destruct r as [ | [ | | ] o ]; try contradiction;
    try (destruct issues; discriminate Hparse).
  cbn in Hparse. injection Hparse as ->.
  destruct M as [Hnone (props & -> & ->)].
  apply valid_user_no_violation in Hnone.
  destruct (normalized_is_normal props Hnone) as (props' & E' & Hvalid & Hsame).
  rewrite E'. rewrite parse_valid_user by now apply valid_user_no_violation.
  now rewrite Hsame, E'.
Qed.

Lemma C5_witness :
  parseAsync UserSchema (VObject Examples.alNick) = Return Examples.alOut /\
  parseAsync UserSchema Examples.alOut = Return Examples.alOut.
Proof.
  split; [ reflexivity
         | apply (C5_parse_idempotent (VObject Examples.alNick) Examples.alOut);
           reflexivity ].
Defined.

Lemma places_of_elements (items : list value) :
  forall i,
    map place (element_violations i items)
    = map (fun j => [Key "roles"; Index j]) (offending i items).
Proof.
  induction items as [ | item rest IH ]; intros i; cbn; trivial.
  destruct (role_ok item); cbn; now rewrite IH.
Qed.

Lemma offending_some (items : list value) :
  forallb role_ok items = false -> forall i, offending i items <> [].
Proof.
  induction items as [ | item rest IH ]; cbn; [discriminate | ].
  destruct (role_ok item); cbn; [ | discriminate ].
  intros Hrest i. now apply IH.
Qed.

(** C6, as the code has it: a body whose [roles] array holds a value
    outside the enumeration is rejected with 400; [details] is made of
    exactly one entry per violated constraint of [name], [email] and [age],
    in that order, followed by exactly one entry per offending element of
    [roles], in index order, with the path [["roles", i]] of that element.
    So when the other fields are valid, [details] has exactly the entries
    of the offending elements; and the body
    [{"name":"Bo","email":"bo@x.com","roles":["owner"]}] gets exactly one
    entry, at [roles[0]]. *)
Theorem C6_one_entry_per_offending_role :
  (forall props items,
     get props "roles" = VArray items ->
     forallb role_ok items = false ->
     exists others roleEntries,
       POST_users (VObject props) = rejected (others ++ roleEntries) /\
       Forall2 reports others
         (on "name" (name_violations (get props "name")) ++
          on "email" (email_violations (get props "email")) ++
          on "age" (age_violations (get props "age"))) /\
       Forall2 reports roleEntries (element_violations 0 items) /\
       map path roleEntries
       = map (fun i => [Key "roles"; Index i]) (offending 0 items) /\
       List.length roleEntries = List.length (offending 0 items) /\
       offending 0 items <> []) /\
  (forall props items,
     name_ok (get props "name") = true ->
     email_ok (get props "email") = true ->
     age_ok (get props "age") = true ->
     get props "roles" = VArray items ->
     forallb role_ok items = false ->
     exists roleEntries,
       POST_users (VObject props) = rejected roleEntries /\
       map path roleEntries
       = map (fun i => [Key "roles"; Index i]) (offending 0 items) /\
       List.length roleEntries = List.length (offending 0 items)) /\
  POST_users
    (VObject [ ("name", VString "Bo"); ("email", VString "bo@x.com");
               ("roles", VArray [VString "owner"]) ])
  = rejected
      [ {| data := invalid_enum_value "owner" ["admin"; "user"];
           path := [Key "roles"; Index 0];
           message := "Role must be 'admin' or 'user'." |} ].
Proof.
  assert (Hgeneral :
    forall props items,
      get props "roles" = VArray items ->
      forallb role_ok items = false ->
      exists others roleEntries,
        POST_users (VObject props) = rejected (others ++ roleEntries) /\
        Forall2 reports others
          (on "name" (name_violations (get props "name")) ++
           on "email" (email_violations (get props "email")) ++
           on "age" (age_violations (get props "age"))) /\
        Forall2 reports roleEntries (element_violations 0 items) /\
        map path roleEntries
        = map (fun i => [Key "roles"; Index i]) (offending 0 items) /\
        List.length roleEntries = List.length (offending 0 items) /\
        offending 0 items <> []).
  { intros props items Hroles Hbad.
    assert (Hsome : violations (VObject props) <> []).
    { intros Hnone. apply valid_user_no_violation in Hnone.
      unfold valid_user in Hnone. rewrite Hroles in Hnone. cbn in Hnone.
      rewrite Hbad, !andb_false_r in Hnone. discriminate Hnone. }
    destruct (post_users_rejected _ Hsome) as (errors & F & _ & E).
    cbn [violations] in F. rewrite Hroles in F. cbn [roles_violations] in F.
    rewrite !app_assoc in F.
    apply Forall2_app_inv_r in F as (others & roleEntries & Fo & Fr & ->).
    rewrite <- !app_assoc in Fo.
    assert (Hpaths : map path roleEntries
                     = map (fun i => [Key "roles"; Index i]) (offending 0 items)).
    { rewrite (reports_same_places _ _ Fr). apply places_of_elements. }
    exists others, roleEntries. repeat split; trivial.
    - apply (f_equal (@List.length _)) in Hpaths.
      now rewrite !length_map in Hpaths.
    - now apply offending_some. }
  split; [ exact Hgeneral | ]. split; [ | reflexivity ].
  intros props items Hn He Ha Hroles Hbad.
  destruct (Hgeneral props items Hroles Hbad)
    as (others & roleEntries & E & Fo & _ & Hpaths & Hlength & _).
  apply name_ok_iff in Hn. apply email_ok_iff in He. apply age_ok_iff in Ha.
  rewrite Hn, He, Ha in Fo. inversion Fo; subst.
  exists roleEntries. repeat split; trivial.
Qed.

Lemma C6_witness :
  (exists others roleEntries,
     POST_users (VObject (("name", VString "Bo") :: [("roles", VArray Examples.fourRoles)]))
     = rejected (others ++ roleEntries) /\
     Forall2 reports others [ mkViolation [Key "email"] Required ] /\
     Forall2 reports roleEntries
       [ mkViolation [Key "roles"; Index 1] (OneOf roleNames);
         mkViolation [Key "roles"; Index 3] (OneOf roleNames) ] /\
     map path roleEntries = [ [Key "roles"; Index 1]; [Key "roles"; Index 3] ] /\
     List.length roleEntries = 2%nat /\
     [1; 3]%nat <> []) /\
  (exists roleEntries,
     POST_users (VObject (Examples.al ++ [("roles", VArray Examples.fourRoles)])%list)
     = rejected roleEntries /\
     map path roleEntries = [ [Key "roles"; Index 1]; [Key "roles"; Index 3] ] /\
     List.length roleEntries = 2%nat).
Proof.
  destruct C6_one_entry_per_offending_role as (Hgeneral & Hvalid & _).
  split.
  - apply (Hgeneral (("name", VString "Bo") :: [("roles", VArray Examples.fourRoles)])
             Examples.fourRoles);
      reflexivity.
  - apply (Hvalid (Examples.al ++ [("roles", VArray Examples.fourRoles)])%list
             Examples.fourRoles);
      reflexivity.
Defined.

(** C6 as stated fails.  With [roles = ["owner", "root"]] the response has
    two entries in [details], not exactly one; and with
    [roles = ["admin", "owner"]] its one entry is at [roles[1]], not at
    [roles[0]]. *)
Lemma C6_counterexample :
  (exists items,
     property Examples.twoBadRoles "roles" = VArray items /\
     forallb role_ok items = false) /\
  ~ (exists entry,
       POST_users Examples.twoBadRoles = rejected [entry] /\
       path entry = [Key "roles"; Index 0]) /\
  (exists items,
     property Examples.secondRoleBad "roles" = VArray items /\
     forallb role_ok items = false) /\
  ~ (exists entry,
       POST_users Examples.secondRoleBad = rejected [entry] /\
       path entry = [Key "roles"; Index 0]).
Proof.
  repeat apply conj.
  - eexists. split; reflexivity.
  - intros (entry & E & _). vm_compute in E. discriminate E.
  - eexists. split; reflexivity.
  - intros ([d p m] & E & Hpath). cbn in Hpath. subst p.
    destruct d; vm_compute in E; discriminate E.
Qed.

(** C7: when parsing the request body throws an error that is not a
    [ZodError], the middleware sends no response: it calls [next(error)],
    and the request ends on the unhandled-error path whatever handlers
    follow. *)
Theorem C7_other_errors_forwarded (schema : ZodType) (req : Request) (e : Exn) :
  parseAsync schema (body req) = Throw e ->
  (forall issues, e <> ZodError issues) ->
  validateRequest schema req = next_error e /\
  (forall res, validateRequest schema req <> send res) /\
  (forall rest,
     dispatch (("validateRequest", validateRequest schema) :: rest) req
     = (["validateRequest"], Unhandled e)).
Proof.
  intros Hthrow Hother.
  assert (Hnext : validateRequest schema req = next_error e).
  { unfold validateRequest. rewrite Hthrow.
    destruct e as [issues | msg]; [now elim (Hother issues) | reflexivity]. }
  repeat split; trivial.
  - intros res. rewrite Hnext. discriminate.
  - intros rest. cbn [dispatch]. now rewrite Hnext.
Qed.

Lemma C7_witness :
  parseAsync Examples.throwing (body Examples.flagRequest)
  = Throw (Error "lookup failed") /\
  validateRequest Examples.throwing Examples.flagRequest
  = next_error (Error "lookup failed") /\
  (forall res, validateRequest Examples.throwing Examples.flagRequest <> send res) /\
  (forall rest,
     dispatch (("validateRequest", validateRequest Examples.throwing) :: rest)
              Examples.flagRequest
     = (["validateRequest"], Unhandled (Error "lookup failed"))).
Proof.
  split; [ reflexivity | ].
  apply (C7_other_errors_forwarded Examples.throwing Examples.flagRequest
           (Error "lookup failed"));
    [ reflexivity | discriminate ].
Defined.

(* ================================================================== *)
(** ** The list-users query schema *)

Lemma includeRoles_field (S : ZodType) (v : value) :
  fieldSchema GetUserQueryDTO "includeRoles" = Some S ->
  refines S [Key "includeRoles"] v
    (on "includeRoles" (includeRoles_violations v))
    (withDefault (VBoolean false) v).
Proof.
  intros E; injection E as <-.
  destruct v as [ | | b | n | s | items | props ];
    try (destruct n); refines_here.
Qed.

Lemma page_field (S : ZodType) (v : value) :
  fieldSchema GetUserQueryDTO "page" = Some S ->
  refines S [Key "page"] v (on "page" (page_violations v))
    (withDefault (VNumber (ofZ 1)) v).
Proof.
  intros E; injection E as <-.
  destruct v as [ | | b | n | s | items | props ]; try refines_here.
  destruct n as [q | | | ]; try refines_here.
  all: unfold refines; cbn -[isInteger JS.lt whole atLeast].
  all: spec_tests (Finite q).
  all: refines_here.
Qed.

Lemma limit_field (S : ZodType) (v : value) :
  fieldSchema GetUserQueryDTO "limit" = Some S ->
  refines S [Key "limit"] v (on "limit" (limit_violations v))
    (withDefault (VNumber (ofZ 10)) v).
Proof.
  intros E; injection E as <-.
  destruct v as [ | | b | n | s | items | props ]; try refines_here.
  destruct n as [q | | | ]; try refines_here.
  all: unfold refines; cbn -[isInteger JS.lt JS.gt whole atLeast atMost].
  all: spec_tests (Finite q).
  all: refines_here.
Qed.

Lemma withDefault_defined (d v : value) :
  isUndefined d = false -> isUndefined (withDefault d v) = false.
Proof. destruct v; cbn; trivial. Qed.

Lemma query_object (props : list (string * value)) :
  refines GetUserQueryDTO [] (VObject props) (query_violations (VObject props))
    (normalized_query props).
Proof.
  unfold refines. cbn [_parse GetUserQueryDTO z.object app].
  match goal with |- context [_parse ?S [Key "includeRoles"] ?v] =>
    destruct (includeRoles_field S v eq_refl) as (r1 & i1 & E1 & F1 & M1) end.
  match goal with |- context [_parse ?S [Key "page"] ?v] =>
    destruct (page_field S v eq_refl) as (r2 & i2 & E2 & F2 & M2) end.
  match goal with |- context [_parse ?S [Key "limit"] ?v] =>
    destruct (limit_field S v eq_refl) as (r3 & i3 & E3 & F3 & M3) end.
  rewrite E1, E2, E3. cbn [bind fst snd ret].
  eexists _, _. split; [reflexivity | ]. split.
  - rewrite !app_nil_r. cbn [query_violations].
    repeat apply Forall2_app; assumption.
  - cbn [query_violations].
    merge_field r1 M1; merge_field r2 M2; merge_field r3 M3.
    destruct M1 as [N1 ->], M2 as [N2 ->], M3 as [N3 ->].
    split; [now rewrite N1, N2, N3 | ].
    rewrite !withDefault_defined by reflexivity. reflexivity.
Qed.

Lemma query_accepted (props : list (string * value)) :
  query_violations (VObject props) = [] ->
  parseAsync GetUserQueryDTO (VObject props) = Return (normalized_query props).
Proof.
  intros Hnone. unfold parseAsync, safeParseAsync.
  destruct (query_object props) as (r & issues & E & F & M). rewrite E.
  destruct r as [ | [ | | ] o ]; try contradiction; try (now elim M).
  destruct M as [_ ->]. reflexivity.
Qed.

Lemma query_rejected (props : list (string * value)) :
  query_violations (VObject props) <> [] ->
  exists errors,
    Forall2 reports errors (query_violations (VObject props)) /\
    parseAsync GetUserQueryDTO (VObject props) = Throw (ZodError errors).
Proof.
  intros Hsome. unfold parseAsync, safeParseAsync.
  destruct (query_object props) as (r & issues & E & F & M). rewrite E.
  exists issues. split; [exact F | ].
  assert (Hissues : issues <> []).
  { intros ->. apply reports_same_length in F.
    destruct (query_violations (VObject props)); [congruence | discriminate F]. }
  destruct r as [ | [ | | ] o ]; try contradiction;
    try (now elim Hsome); destruct issues; try congruence; reflexivity.
Qed.

Lemma flag_ok_iff (v : value) :
  flag_ok v = true <-> includeRoles_violations v = [].
Proof. destruct v; cbn; split; trivial; discriminate. Qed.

Lemma integer_ok_iff (lo : Z) (hi : option Z) (n : number) :
  n <> NaN ->
  integer_ok lo hi (VNumber n) = true <-> integer_violations lo hi n = [].
Proof.
  intros _. unfold integer_ok, integer_violations.
  destruct (whole n), (atLeast lo n), hi as [h | ];
    try destruct (atMost h n); cbn; split; trivial; discriminate.
Qed.

Lemma page_ok_iff (v : value) :
  integer_ok 1 None v = true <-> page_violations v = [].
Proof.
  destruct v as [ | | ? | n | ? | ? | ? ]; try (cbn; split; trivial; discriminate).
  destruct n as [q | | | ]; try (cbn; split; trivial; discriminate).
  now apply integer_ok_iff.
Qed.

Lemma limit_ok_iff (v : value) :
  integer_ok 1 (Some 100%Z) v = true <-> limit_violations v = [].
Proof.
  destruct v as [ | | ? | n | ? | ? | ? ]; try (cbn; split; trivial; discriminate).
  destruct n as [q | | | ]; try (cbn; split; trivial; discriminate).
  now apply integer_ok_iff.
Qed.

Lemma valid_query_no_violation (props : list (string * value)) :
  valid_query props = true <-> query_violations (VObject props) = [].
Proof.
  unfold valid_query, query_violations.
  rewrite !andb_true_iff, !app_nil_iff, !on_nil.
  rewrite flag_ok_iff, page_ok_iff, limit_ok_iff. tauto.
Qed.

(** The query with [limit] set to a number out of bounds is rejected with
    an entry for [limit]. *)
Lemma limit_out_of_bounds (props : list (string * value)) (n : number) :
  get props "limit" = VNumber n ->
  integer_ok 1 (Some 100%Z) (VNumber n) = false ->
  exists errors,
    parseAsync GetUserQueryDTO (VObject props) = Throw (ZodError errors) /\
    In [Key "limit"] (map path errors).
Proof.
  intros Hlimit Hbad.
  assert (Hviol : limit_violations (VNumber n) <> []).
  { intros Hnone. apply limit_ok_iff in Hnone. congruence. }
  assert (Hsome : query_violations (VObject props) <> []).
  { cbn [query_violations]. rewrite Hlimit, !app_nil_iff, !on_nil. tauto. }
  destruct (query_rejected props Hsome) as (errors & F & E).
  exists errors. split; [exact E | ].
  rewrite (reports_same_places _ _ F). cbn [query_violations].
  rewrite Hlimit, !map_app. do 2 (apply in_or_app; right).
  destruct (limit_violations (VNumber n)); [congruence | cbn; auto].
Qed.

(** C8: the list-users query schema.  With all three fields omitted it
    yields [{includeRoles: false, page: 1, limit: 10}]; it accepts a query
    exactly when [includeRoles] is absent or a boolean, [page] is absent or
    an integer at least 1 and [limit] is absent or an integer from 1 to 100,
    and then returns the query with the defaults filled in; so [limit = 100]
    is accepted and [limit = 101] and [limit = 0] are rejected. *)
Theorem C8_query_defaults_and_bounds :
  (forall props,
     absent props "includeRoles" = true ->
     absent props "page" = true ->
     absent props "limit" = true ->
     parseAsync GetUserQueryDTO (VObject props)
     = Return (VObject [ ("includeRoles", VBoolean false);
                         ("page", VNumber (ofZ 1));
                         ("limit", VNumber (ofZ 10)) ])) /\
  (forall props,
     (exists out, parseAsync GetUserQueryDTO (VObject props) = Return out)
     <-> valid_query props = true) /\
  (forall props,
     valid_query props = true ->
     parseAsync GetUserQueryDTO (VObject props) = Return (normalized_query props)) /\
  (forall props,
     flag_ok (get props "includeRoles") = true ->
     integer_ok 1 None (get props "page") = true ->
     get props "limit" = VNumber (ofZ 100) ->
     exists out,
       parseAsync GetUserQueryDTO (VObject props) = Return out /\
       property out "limit" = VNumber (ofZ 100)) /\
  (forall props,
     get props "limit" = VNumber (ofZ 101) \/ get props "limit" = VNumber (ofZ 0) ->
     exists errors,
       parseAsync GetUserQueryDTO (VObject props) = Throw (ZodError errors) /\
       In [Key "limit"] (map path errors)).
Proof.
  split; [ | split; [ | split; [ | split ] ] ].
  - intros props H1 H2 H3. unfold absent in *.
    rewrite query_accepted.
    + unfold normalized_query.
      destruct (get props "includeRoles"), (get props "page"),
        (get props "limit"); try discriminate; reflexivity.
    + apply valid_query_no_violation. unfold valid_query.
      destruct (get props "includeRoles"), (get props "page"),
        (get props "limit"); try discriminate; reflexivity.
  - intros props. split.
    + intros (out & Eout). apply valid_query_no_violation.
      destruct (query_violations (VObject props)) eqn:Hviol; trivial.
      destruct (query_rejected props) as (errors & _ & E);
        [ rewrite Hviol; discriminate | congruence ].
    + intros Hvalid. eexists. apply query_accepted.
      now apply valid_query_no_violation.
  - intros props Hvalid. apply query_accepted.
    now apply valid_query_no_violation.
  - intros props Hflag Hpage Hlimit. exists (normalized_query props). split.
    + apply query_accepted, valid_query_no_violation. unfold valid_query.
      now rewrite Hflag, Hpage, Hlimit.
    + cbn. now rewrite Hlimit.
  - intros props [Hlimit | Hlimit];
      apply (limit_out_of_bounds props _ Hlimit); reflexivity.
Qed.

Lemma C8_witness :
  parseAsync GetUserQueryDTO (VObject [])
  = Return (VObject [ ("includeRoles", VBoolean false);
                      ("page", VNumber (ofZ 1));
                      ("limit", VNumber (ofZ 10)) ]) /\
  ((exists out, parseAsync GetUserQueryDTO (VObject Examples.secondPage) = Return out)
   <-> valid_query Examples.secondPage = true) /\
  parseAsync GetUserQueryDTO (VObject Examples.secondPage)
  = Return (normalized_query Examples.secondPage) /\
  (exists out,
     parseAsync GetUserQueryDTO (VObject Examples.secondPage) = Return out /\
     property out "limit" = VNumber (ofZ 100)) /\
  (exists errors,
     parseAsync GetUserQueryDTO (VObject [("limit", VNumber (ofZ 101))])
     = Throw (ZodError errors) /\
     In [Key "limit"] (map path errors)) /\
  (exists errors,
     parseAsync GetUserQueryDTO (VObject [("limit", VNumber (ofZ 0))])
     = Throw (ZodError errors) /\
     In [Key "limit"] (map path errors)).
Proof.
  destruct C8_query_defaults_and_bounds
    as (Hdefaults & Hiff & Hvalid & Hhundred & Hout).
  repeat apply conj.
  - apply Hdefaults; reflexivity.
  - apply (proj1 (Hiff Examples.secondPage)).
  - apply (proj2 (Hiff Examples.secondPage)).
  - apply Hvalid; reflexivity.
  - apply Hhundred; reflexivity.
  - apply Hout. left; reflexivity.
  - apply Hout. right; reflexivity.
Defined.

(* ================================================================== *)
(** ** Undeclared keys *)

Lemma normalized_keys (props : list (string * value)) :
  exists out, normalized props = VObject out /\ incl (keys out) declaredFields.
Proof.
  unfold normalized. eexists. split; [reflexivity | ].
  destruct (hasKey props "age"); cbn; intros k Hk; cbn in *; intuition.
Qed.



(* ================================================================== *)
(** ** The documented 400 response against the actual one *)

Lemma mergeArray_invalid (results : list ParseReturn) :
  In INVALID results ->
  forall status acc, mergeArray status acc results = INVALID.
Proof.
  induction results as [ | r rest IH ]; intros Hin status acc; [ now elim Hin | ].
  destruct r as [ | [ | | ] v ]; cbn; trivial;
    (destruct Hin as [Hhere | Hthere]; [ discriminate Hhere | now apply IH ]).
Qed.

Lemma Forall2_In_left {A B} (Q : A -> B -> Prop) (xs : list A) (ys : list B) (x : A) :
  Forall2 Q xs ys -> In x xs -> exists y, In y ys /\ Q x y.
Proof.
  induction 1 as [ | x' y' xs ys Hhead _ IH ]; intros Hin; [ now elim Hin | ].
  destruct Hin as [-> | Hin].
  - exists y'. split; [now left | exact Hhead].
  - destruct (IH Hin) as (y & Hy & HQ). exists y. split; [now right | exact HQ].
Qed.

Lemma Forall2_In_right {A B} (Q : A -> B -> Prop) (xs : list A) (ys : list B) (y : B) :
  Forall2 Q xs ys -> In y ys -> exists x, In x xs /\ Q x y.
Proof.
  induction 1 as [ | x' y' xs ys Hhead _ IH ]; intros Hin; [ now elim Hin | ].
  destruct Hin as [-> | Hin].
  - exists x'. split; [now left | exact Hhead].
  - destruct (IH Hin) as (x & Hx & HQ). exists x. split; [now right | exact HQ].
Qed.

(** Mapping a parser that does not throw over an array does not throw, and
    what holds of each element's result holds along the results. *)
Lemma mapi_results {A B} (f : nat -> A -> Parse B) (Q : A -> B -> Prop)
    (xs : list A) :
  (forall j x, In x xs -> exists r issues, f j x = (Return r, issues) /\ Q x r) ->
  forall i, exists rs issues,
    mapi f i xs = (Return rs, issues) /\ Forall2 Q xs rs.
Proof.
  induction xs as [ | x rest IH ]; intros Hall i.
  - exists [], []. split; [reflexivity | constructor].
  - destruct (Hall i x (or_introl eq_refl)) as (r & here & Er & Qr).
    destruct (IH (fun j y Hy => Hall j y (or_intror Hy)) (Datatypes.S i))
      as (rs & there & Ers & Qrs).
    exists (r :: rs), (here ++ there ++ [])%list. split.
    + cbn [mapi]. rewrite Er. unfold bind at 1. cbn [fst snd].
      fold (@mapi A B). rewrite Ers. reflexivity.
    + now constructor.
Qed.

Lemma documented_string (p : list PathItem) (v : value) :
  exists r issues,
    _parse (z.string None) p v = (Return r, issues) /\
    ((forall s, v <> VString s) -> r = INVALID).
Proof.
  destruct v as [ | | b | n | s | items | props ]; try (destruct n);
    eexists _, _; (split; [reflexivity | ]); trivial.
  intros H. now elim (H s).
Qed.

Lemma documented_path (p : list PathItem) (items : list value) :
  exists r issues,
    _parse (z.array (z.string None)) p (VArray items) = (Return r, issues) /\
    ((exists n, In (VNumber n) items) -> r = INVALID).
Proof.
  cbn [_parse z.array].
  destruct (mapi_results
              (fun i item => _parse (z.string None) (p ++ [Index i]) item)
              (fun item r => (forall s, item <> VString s) -> r = INVALID)
              items
              (fun j x _ => documented_string (p ++ [Index j]) x) 0)
    as (rs & issues & E & F).
  rewrite E. eexists _, _. split; [reflexivity | ].
  intros (n & Hn).
  destruct (Forall2_In_left _ _ _ _ F Hn) as (r & Hr & Hinvalid).
  apply mergeArray_invalid. rewrite <- Hinvalid; [exact Hr | discriminate].
Qed.

(** One entry of [details] against the documented entry schema: an index in
    its path is a number where the schema wants a string. *)
Lemma documented_entry (p : list PathItem) (issue : ZodIssue) :
  exists r issues,
    _parse (z.object [ ("code", z.string None); ("message", z.string None);
                       ("path", z.array (z.string None)) ])
           p (issueToJSON issue)
    = (Return r, issues) /\
    ((exists i, In (Index i) (path issue)) -> r = INVALID).
Proof.
  destruct (issueToJSON_fields issue) as (Ecode & Emessage & Epath).
  unfold issueToJSON in *. cbn [property] in *.
  cbn [_parse z.object]. rewrite Ecode, Emessage, Epath.
  destruct (documented_string (p ++ [Key "code"]) (VString (code (data issue))))
    as (r1 & i1 & E1 & _).
  destruct (documented_string (p ++ [Key "message"]) (VString (message issue)))
    as (r2 & i2 & E2 & _).
  destruct (documented_path (p ++ [Key "path"]) (map pathItemToJSON (path issue)))
    as (r3 & i3 & E3 & H3).
  rewrite E1, E2, E3. cbn [bind fst snd ret].
  eexists _, _. split; [reflexivity | ].
  intros (i & Hi). rewrite H3.
  - destruct r1 as [ | [ | | ] ? ], r2 as [ | [ | | ] ? ]; reflexivity.
  - exists (ofNat i). now apply (in_map pathItemToJSON _ (Index i)).
Qed.

Lemma mapi_map {A B C} (f : nat -> B -> Parse C) (g : A -> B) (xs : list A) :
  forall i, mapi f i (map g xs) = mapi (fun j x => f j (g x)) i xs.
Proof.
  induction xs as [ | x rest IH ]; intros i; cbn [map mapi]; trivial.
  now rewrite IH.
Qed.

Lemma documented_details (p : list PathItem) (errors : list ZodIssue) :
  exists r issues,
    _parse (z.array
              (z.object [ ("code", z.string None); ("message", z.string None);
                          ("path", z.array (z.string None)) ]))
           p (VArray (map issueToJSON errors))
    = (Return r, issues) /\
    ((exists issue i, In issue errors /\ In (Index i) (path issue)) ->
     r = INVALID).
Proof.
  cbn [_parse z.array]. rewrite mapi_map.
  match goal with |- context [mapi ?f 0 errors] =>
    destruct (mapi_results f
                (fun issue r => (exists i, In (Index i) (path issue)) -> r = INVALID)
                errors
                (fun j issue _ => documented_entry (p ++ [Index j]) issue) 0)
      as (rs & issues & E & F)
  end.
  rewrite E. eexists _, _. split; [reflexivity | ].
  intros (issue & i & Hissue & Hi).
  destruct (Forall2_In_left _ _ _ _ F Hissue) as (r & Hr & Hinvalid).
  apply mergeArray_invalid. rewrite <- Hinvalid; [exact Hr | now exists i].
Qed.

(** The body of a 400 response against the schema documented for it. *)
Lemma documented_response (errors : list ZodIssue) :
  (exists issue i, In issue errors /\ In (Index i) (path issue)) ->
  accepts ValidationErrorResponse
    (VObject [ ("error", VString "Validation failed");
               ("details", VArray (map issueToJSON errors)) ])
  = false.
Proof.
  intros Hindex.
  unfold accepts, safeParseAsync.
  cbn [_parse ValidationErrorResponse z.object get String.eqb Ascii.eqb Bool.eqb
       app].
  destruct (documented_string [Key "error"] (VString "Validation failed"))
    as (r1 & i1 & E1 & _).
  destruct (documented_details [Key "details"] errors) as (r2 & i2 & E2 & H2).
  rewrite E1, E2, (H2 Hindex). cbn [bind fst snd ret].
  destruct r1 as [ | [ | | ] ? ];
    cbn [mergeObjectSync pair_value handleResult];
    match goal with |- context [match ?l with [] => _ | _ => _ end] =>
      destruct l end; reflexivity.
Qed.

Lemma offending_violation (items : list value) :
  forall i j item,
    nth_error items j = Some item ->
    role_ok item = false ->
    In (mkViolation [Key "roles"; Index (i + j)] (OneOf roleNames))
       (element_violations i items).
Proof.
  induction items as [ | head rest IH ]; intros i j item Hnth Hbad.
  - destruct j; discriminate Hnth.
  - destruct j as [ | j ]; cbn in Hnth; cbn [element_violations].
    + injection Hnth as ->. rewrite Hbad, Nat.add_0_r. now left.
    + apply in_or_app; right. rewrite Nat.add_succ_r.
      now apply (IH (Datatypes.S i) j item).
Qed.

(** C10: a violation inside [roles] is reported with the path
    [["roles", i]], whose second element is the numeric index; the entry is
    the raw issue and carries [received] beside code, message and path; and
    the body of that 400 response is not accepted by the schema the
    documentation registers for status 400, which wants strings in [path]. *)
Theorem C10_response_not_as_documented
    (props : list (string * value)) (items : list value) (i : nat) (item : value) :
  get props "roles" = VArray items ->
  nth_error items i = Some item ->
  role_ok item = false ->
  exists errors issue,
    POST_users (VObject props) = rejected errors /\
    In issue errors /\
    property (issueToJSON issue) "path"
    = VArray [VString "roles"; VNumber (ofNat i)] /\
    In "received" (ownKeys (issueToJSON issue)) /\
    ~ In "received" ["code"; "message"; "path"] /\
    documented (responses createUserRoute) 400 = Some ValidationErrorResponse /\
    accepts ValidationErrorResponse
      (VObject [ ("error", VString "Validation failed");
                 ("details", VArray (map issueToJSON errors)) ])
    = false.
Proof.
  intros Hroles Hnth Hbad.
  pose proof (offending_violation items 0 i item Hnth Hbad) as Hviol.
  assert (Hin : In (mkViolation [Key "roles"; Index i] (OneOf roleNames))
                   (violations (VObject props))).
  { cbn [violations]. rewrite Hroles. do 3 (apply in_or_app; right). exact Hviol. }
  assert (Hsome : violations (VObject props) <> []).
  { intros Hnone. rewrite Hnone in Hin. now elim Hin. }
  destruct (post_users_rejected _ Hsome) as (errors & F & _ & E).
  destruct (Forall2_In_right _ _ _ _ F Hin) as (issue & Hissue & Hpath & Hdata).
  cbn [place broken] in Hpath, Hdata.
  exists errors, issue. repeat split; trivial.
  - destruct (issueToJSON_fields issue) as (_ & _ & ->). now rewrite Hpath.
  - destruct issue as [[] ? ?]; cbn in Hdata |- *; try contradiction; auto.
  - cbn. intuition discriminate.
  - apply documented_response. exists issue, i. split; [exact Hissue | ].
    rewrite Hpath. cbn. auto.
Qed.

Lemma C10_witness :
  get Examples.bo "roles" = VArray [VString "owner"] /\
  role_ok (VString "owner") = false /\
  exists errors issue,
    POST_users (VObject Examples.bo) = rejected errors /\
    In issue errors /\
    property (issueToJSON issue) "path"
    = VArray [VString "roles"; VNumber (ofNat 0)] /\
    In "received" (ownKeys (issueToJSON issue)) /\
    ~ In "received" ["code"; "message"; "path"] /\
    documented (responses createUserRoute) 400 = Some ValidationErrorResponse /\
    accepts ValidationErrorResponse
      (VObject [ ("error", VString "Validation failed");
                 ("details", VArray (map issueToJSON errors)) ])
    = false.
Proof.
  split; [ reflexivity | split; [ reflexivity | ] ].
  apply (C10_response_not_as_documented Examples.bo [VString "owner"] 0
           (VString "owner"));
    reflexivity.
Defined.

(* ================================================================== *)
(** ** Further properties of [POST /users] *)

(** The route always answers: 201 with the normalized user, or 400 with at
    least one entry.  No payload reaches [next(error)]. *)
Theorem post_users_answers (payload : value) :
  (exists props,
     payload = VObject props /\ valid_user props = true /\
     POST_users payload = created (normalized props)) \/
  (exists errors,
     errors <> [] /\ violations payload <> [] /\
     POST_users payload = rejected errors).
Proof.
  destruct (violations payload) eqn:Hviol.
  - left. destruct payload; try discriminate Hviol.
    exists props. split; [reflexivity | ]. split.
    + now apply valid_user_no_violation.
    + now apply post_users_created.
  - right.
    destruct (post_users_rejected payload) as (errors & F & _ & E);
      [ rewrite Hviol; discriminate | ].
    exists errors. repeat split; trivial; try discriminate.
    intros ->. apply reports_same_length in F. rewrite Hviol in F.
    discriminate F.
Qed.

(** A body that is not an object (no body, [null], a string, a number, an
    array) gets 400 with a single entry at the empty path: "Required" when
    there is no body, otherwise "Expected object, received" and the type. *)
Theorem not_an_object_rejected (payload : value) :
  (forall props, payload <> VObject props) ->
  POST_users payload
  = rejected
      [ {| data := invalid_type "object" (typeName (getParsedType payload));
           path := [];
           message :=
             match payload with
             | VUndefined => "Required"
             | _ => "Expected object, received "
                      ++ typeName (getParsedType payload)
             end |} ].
Proof.
  intros Hno.
  destruct payload as [ | | b | n | s | items | props ];
    try (destruct n); try reflexivity.
  now elim (Hno props).
Qed.

Lemma not_an_object_rejected_witness :
  POST_users (VArray [VObject Examples.al])
  = rejected
      [ {| data := invalid_type "object" "array";
           path := [];
           message := "Expected object, received array" |} ].
Proof.
  apply (not_an_object_rejected (VArray [VObject Examples.al])). discriminate.
Defined.

(* ================================================================== *)
(** ** The messages of the user schema *)

(** Closes a [Forall2 worded] goal whose parse has been computed. *)
Ltac worded_here :=
  solve [ cbn; repeat constructor; cbn; auto; try discriminate ].

Lemma name_worded (S : ZodType) (v : value) :
  fieldSchema UserSchema "name" = Some S ->
  Forall2 worded (snd (_parse S [Key "name"] v)) (on "name" (name_violations v)).
Proof.
  intros E; injection E as <-.
  destruct v as [ | | b | n | s | items | props ];
    try (destruct n); try worded_here.
  unfold name_violations. cbn -[Nat.leb Z.ltb Z.of_nat String.length].
  rewrite length_below_2.
  destruct (2 <=? String.length s)%nat; worded_here.
Qed.

Lemma email_worded (S : ZodType) (v : value) :
  fieldSchema UserSchema "email" = Some S ->
  Forall2 worded (snd (_parse S [Key "email"] v))
    (on "email" (email_violations v)).
Proof.
  intros E; injection E as <-.
  destruct v as [ | | b | n | s | items | props ];
    try (destruct n); try worded_here.
  unfold email_violations. cbn -[emailRegex_test].
  destruct (emailRegex_test s); worded_here.
Qed.

Lemma age_worded (S : ZodType) (v : value) :
  fieldSchema UserSchema "age" = Some S ->
  Forall2 worded (snd (_parse S [Key "age"] v)) (on "age" (age_violations v)).
Proof.
  intros E; injection E as <-.
  destruct v as [ | | b | n | s | items | props ]; try worded_here.
  destruct n as [q | | | ]; try worded_here.
  all: unfold age_violations; cbn -[isInteger JS.lt whole atLeast].
  all: spec_tests (Finite q).
  all: worded_here.
Qed.

Lemma role_element_worded (e : ZodType) (d : value) (i : nat) (item : value) :
  fieldSchema UserSchema "roles" = Some (ZodDefault (ZodArray e) d) ->
  Forall2 worded (snd (_parse e [Key "roles"; Index i] item))
    (if role_ok item then []
     else [mkViolation [Key "roles"; Index i] (OneOf roleNames)]).
Proof.
  intros E; injection E as <- <-.
  destruct item as [ | | b | n | s | items | props ];
    try (destruct n); try worded_here.
  unfold role_ok, roleNames. cbn -[includes].
  destruct (includes ["admin"; "user"] s); worded_here.
Qed.

Lemma role_elements_worded (e : ZodType) (d : value) (items : list value) :
  fieldSchema UserSchema "roles" = Some (ZodDefault (ZodArray e) d) ->
  forall i,
    Forall2 worded
      (snd (mapi (fun j item => _parse e ([Key "roles"] ++ [Index j]) item) i items))
      (element_violations i items).
Proof.
  intros E. induction items as [ | item rest IH ]; intros i.
  - constructor.
  - pose proof (role_element_worded e d i item E) as Whead.
    destruct (role_element e d i item E) as (here & Ehere & _).
    destruct (role_elements e d rest E (Datatypes.S i)) as (there & Ethere & _).
    specialize (IH (Datatypes.S i)).
    rewrite Ehere in Whead. rewrite Ethere in IH. cbn [snd] in Whead, IH.
    cbn [mapi]. change ([Key "roles"] ++ [Index i])%list with [Key "roles"; Index i].
    rewrite Ehere. unfold bind at 1. cbn [fst snd].
    fold (@mapi value ParseReturn). rewrite Ethere. cbn [bind fst snd ret].
    rewrite app_nil_r. cbn [element_violations]. now apply Forall2_app.
Qed.

Lemma roles_worded (S : ZodType) (v : value) :
  fieldSchema UserSchema "roles" = Some S ->
  Forall2 worded (snd (_parse S [Key "roles"] v)) (roles_violations v).
Proof.
  intros E.
  assert (exists e d, S = ZodDefault (ZodArray e) d) as (e & d & ->)
    by (injection E as <-; eexists _, _; reflexivity).
  destruct v as [ | | b | n | s | items | props ];
    try (destruct n);
    try (injection E as <- <-; worded_here).
  pose proof (role_elements_worded e d items E 0) as W.
  destruct (role_elements e d items E 0) as (issues & Eitems & _).
  rewrite Eitems in W. cbn [snd] in W.
  cbn [_parse]. rewrite Eitems. cbn [bind fst snd ret roles_violations].
  now rewrite app_nil_r.
Qed.

Lemma user_worded (payload : value) :
  Forall2 worded (snd (_parse UserSchema [] payload)) (violations payload).
Proof.
  destruct payload as [ | | b | n | s | items | props ];
    try (destruct n); try worded_here.
  cbn [_parse UserSchema z.object app].
  match goal with |- context [_parse ?S [Key "name"] ?v] =>
    pose proof (name_worded S v eq_refl) as W1;
    destruct (name_field S v eq_refl) as (r1 & i1 & E1 & _) end.
  match goal with |- context [_parse ?S [Key "email"] ?v] =>
    pose proof (email_worded S v eq_refl) as W2;
    destruct (email_field S v eq_refl) as (r2 & i2 & E2 & _) end.
  match goal with |- context [_parse ?S [Key "age"] ?v] =>
    pose proof (age_worded S v eq_refl) as W3;
    destruct (age_field S v eq_refl) as (r3 & i3 & E3 & _) end.
  match goal with |- context [_parse ?S [Key "roles"] ?v] =>
    pose proof (roles_worded S v eq_refl) as W4;
    destruct (roles_field S v eq_refl) as (r4 & i4 & E4 & _) end.
  rewrite E1 in W1. rewrite E2 in W2. rewrite E3 in W3. rewrite E4 in W4.
  rewrite E1, E2, E3, E4. cbn [bind fst snd ret] in *.
  rewrite !app_nil_r. cbn [violations].
  repeat apply Forall2_app; assumption.
Qed.

(** Every entry of a 400 response carries the message [server.ts] declares
    for the constraint it reports (the "required", "must be a", length,
    format, integer, non-negative and role messages); only a [roles] that is
    not an array and a body that is not an object get zod's default
    wording. *)
Theorem messages_as_declared (payload : value) (errors : list ZodIssue) :
  parseAsync CreateUserDTO payload = Throw (ZodError errors) ->
  Forall2 worded errors (violations payload).
Proof.
  intros Hthrow. pose proof (user_worded payload) as W.
  destruct (user_parse payload) as (r & issues & E & _ & _).
  unfold CreateUserDTO, parseAsync, safeParseAsync in Hthrow.
  rewrite E in Hthrow, W. cbn [snd] in W.
  destruct r as [ | [ | | ] o ], issues; cbn in Hthrow;
    try discriminate Hthrow; now injection Hthrow as <-.
Qed.

Lemma messages_as_declared_witness :
  exists errors,
    parseAsync CreateUserDTO Examples.allWrong = Throw (ZodError errors) /\
    map message errors
    = [ "Name must be at least 2 characters long.";
        "Invalid email format. Please provide a valid email.";
        "Age must be an integer.";
        "Age must be a non-negative number.";
        "Role must be 'admin' or 'user'.";
        "Role must be 'admin' or 'user'." ] /\
    Forall2 worded errors (violations Examples.allWrong).
Proof.
  eexists. split; [ reflexivity | ]. split; [ reflexivity | ].
  apply (messages_as_declared Examples.allWrong). reflexivity.
Defined.

(* ================================================================== *)
(** ** What the response depends on, and what a 201 body is *)

(** The response depends on the declared properties only: two bodies that
    agree on [name], [email], [age] and [roles] (value and presence) get the
    same response, whatever other keys they carry and in whatever order. *)
Theorem same_declared_same_response (a b : list (string * value)) :
  sameDeclared a b ->
  POST_users (VObject a) = POST_users (VObject b).
Proof.
  intros Hsame.
  destruct (Hsame "name") as [Gn Kn]; [cbn; auto | ].
  destruct (Hsame "email") as [Ge Ke]; [cbn; auto | ].
  destruct (Hsame "age") as [Ga Ka]; [cbn; auto | ].
  destruct (Hsame "roles") as [Gr Kr]; [cbn; auto | ].
  assert (Hparse : _parse UserSchema [] (VObject a)
                   = _parse UserSchema [] (VObject b)).
  { cbn [_parse UserSchema z.object app].
    now rewrite Gn, Ge, Ga, Gr, Kn, Ke, Ka, Kr. }
  unfold POST_users, postUsers, dispatch, validateRequest, CreateUserDTO,
    parseAsync, safeParseAsync; cbn [body].
  now rewrite Hparse.
Qed.

Lemma same_declared_same_response_witness :
  sameDeclared Examples.al Samples.alReordered /\
  POST_users (VObject Examples.al) = POST_users (VObject Samples.alReordered).
Proof.
  assert (H : sameDeclared Examples.al Samples.alReordered).
  { intros key [<- | [<- | [<- | [<- | []]]]]; split; reflexivity. }
  split; [ exact H | apply (same_declared_same_response _ _ H) ].
Defined.

Lemma normalized_roles (props : list (string * value)) :
  roles_ok (get props "roles") = true ->
  exists items,
    property (normalized props) "roles" = VArray items /\
    forallb role_ok items = true.
Proof.
  intros Hroles. unfold normalized.
  destruct (hasKey props "age"); cbn;
    destruct (get props "roles"); try discriminate Hroles; cbn;
    eexists; (split; [reflexivity | trivial]).
Qed.

Lemma created_is_normalized (payload user : value) :
  POST_users payload = created user ->
  exists props,
    payload = VObject props /\ valid_user props = true /\
    user = normalized props.
Proof.
  intros Hcreated.
  destruct (violations payload) eqn:Hviol.
  - destruct payload; try discriminate Hviol.
    exists props. split; [reflexivity | ].
    split; [now apply valid_user_no_violation | ].
    rewrite (post_users_created props Hviol) in Hcreated.
    now injection Hcreated as ->.
  - destruct (post_users_rejected payload) as (errors & _ & _ & E);
      [ rewrite Hviol; discriminate | ].
    rewrite E in Hcreated. discriminate Hcreated.
Qed.

(** Every 201 body is a user that satisfies all field constraints: its keys
    are declared fields, and it always has [roles], an array of values of
    the enumeration. *)
Theorem created_body_is_valid_user (payload user : value) :
  POST_users payload = created user ->
  exists props,
    user = VObject props /\
    valid_user props = true /\
    incl (keys props) declaredFields /\
    exists items,
      get props "roles" = VArray items /\ forallb role_ok items = true.
Proof.
  intros Hcreated.
  destruct (created_is_normalized _ _ Hcreated) as (props & -> & Hvalid & ->).
  destruct (normalized_is_normal props Hvalid) as (props' & E & Hvalid' & _).
  destruct (normalized_keys props) as (out & Eout & Hkeys).
  destruct (normalized_roles props) as (items & Hitems & Hall).
  { unfold valid_user in Hvalid. rewrite !andb_true_iff in Hvalid. tauto. }
  rewrite E in Eout. injection Eout as <-.
  exists props'. repeat split; trivial.
  exists items. rewrite E in Hitems. now split.
Qed.

Lemma created_body_is_valid_user_witness :
  exists props,
    Examples.alOut = VObject props /\
    valid_user props = true /\
    incl (keys props) declaredFields /\
    exists items,
      get props "roles" = VArray items /\ forallb role_ok items = true.
Proof.
  apply (created_body_is_valid_user (VObject Examples.alNick) Examples.alOut).
  reflexivity.
Defined.

(** Every 201 body is accepted by the schema the documentation registers
    for status 201. *)
Theorem created_body_as_documented (payload user : value) :
  POST_users payload = created user ->
  documented (responses createUserRoute) 201 = Some UserSchema /\
  accepts UserSchema user = true.
Proof.
  intros Hcreated. split; [reflexivity | ].
  destruct (created_is_normalized _ _ Hcreated) as (props & -> & Hvalid & ->).
  destruct (normalized_is_normal props Hvalid) as (props' & -> & Hvalid' & _).
  now apply accepts_user_iff, valid_user_no_violation.
Qed.

Lemma created_body_as_documented_witness :
  POST_users (VObject Examples.ann) = created (normalized Examples.ann) /\
  documented (responses createUserRoute) 201 = Some UserSchema /\
  accepts UserSchema (normalized Examples.ann) = true.
Proof.
  split; [ reflexivity | ].
  apply (created_body_as_documented (VObject Examples.ann)). reflexivity.
Defined.

(* ================================================================== *)
(** ** When the 400 body matches its documented schema *)

Lemma mergeArray_valid (xs : list value) :
  forall acc, mergeArray valid acc (map OK xs) = Parsed valid (VArray (acc ++ xs)).
Proof.
  induction xs as [ | x rest IH ]; intros acc; cbn.
  - now rewrite app_nil_r.
  - rewrite IH, <- app_assoc. reflexivity.
Qed.

Lemma path_of_keys (p : list PathItem) (items : list PathItem) :
  keyOnly items = true ->
  forall i,
    mapi (fun j item => _parse (z.string None) (p ++ [Index j]) item) i
         (map pathItemToJSON items)
    = (Return (map OK (map pathItemToJSON items)), []).
Proof.
  induction items as [ | item rest IH ]; intros Hkeys i; [reflexivity | ].
  cbn in Hkeys. apply andb_true_iff in Hkeys as [Hitem Hrest].
  destruct item as [k | n]; [ | discriminate Hitem ].
  cbn [map pathItemToJSON mapi].
  change (_parse (z.string None) (p ++ [Index i]) (VString k))
    with (@ret ParseReturn (OK (VString k))).
  unfold bind at 1. cbn [fst snd ret].
  fold (@mapi value ParseReturn). rewrite (IH Hrest). reflexivity.
Qed.

Lemma entry_of_keys (p : list PathItem) (issue : ZodIssue) :
  keyOnly (path issue) = true ->
  _parse (z.object [ ("code", z.string None); ("message", z.string None);
                     ("path", z.array (z.string None)) ])
         p (issueToJSON issue)
  = (Return (OK (documentedEntry issue)), []).
Proof.
  intros Hkeys.
  destruct (issueToJSON_fields issue) as (Ecode & Emessage & Epath).
  unfold issueToJSON in *. cbn [property] in *.
  cbn [_parse z.object]. rewrite Ecode, Emessage, Epath.
  change (_parse (z.string None) (p ++ [Key "code"]) (VString (code (data issue))))
    with (@ret ParseReturn (OK (VString (code (data issue))))).
  change (_parse (z.string None) (p ++ [Key "message"]) (VString (message issue)))
    with (@ret ParseReturn (OK (VString (message issue)))).
  cbn [_parse z.array]. rewrite (path_of_keys _ _ Hkeys).
  cbn [bind fst snd ret]. rewrite mergeArray_valid. reflexivity.
Qed.

Lemma details_of_keys (p : list PathItem) (errors : list ZodIssue) :
  forallb (fun issue => keyOnly (path issue)) errors = true ->
  forall i,
    mapi (fun j entry =>
            _parse (z.object [ ("code", z.string None); ("message", z.string None);
                               ("path", z.array (z.string None)) ])
                   (p ++ [Index j]) entry)
         i (map issueToJSON errors)
    = (Return (map OK (map documentedEntry errors)), []).
Proof.
  induction errors as [ | issue rest IH ]; intros Hkeys i; [reflexivity | ].
  cbn in Hkeys. apply andb_true_iff in Hkeys as [Hissue Hrest].
  cbn [map mapi]. rewrite (entry_of_keys _ _ Hissue).
  unfold bind at 1. cbn [fst snd ret].
  fold (@mapi value ParseReturn). rewrite (IH Hrest). reflexivity.
Qed.

Lemma details_array_of_keys (p : list PathItem) (errors : list ZodIssue) :
  forallb (fun issue => keyOnly (path issue)) errors = true ->
  _parse (z.array
            (z.object [ ("code", z.string None); ("message", z.string None);
                        ("path", z.array (z.string None)) ]))
         p (VArray (map issueToJSON errors))
  = (Return (OK (VArray (map documentedEntry errors))), []).
Proof.
  intros Hkeys. cbn [_parse z.array]. rewrite (details_of_keys _ _ Hkeys).
  cbn [bind fst snd ret]. rewrite mergeArray_valid. reflexivity.
Qed.

Lemma index_in_path (items : list PathItem) :
  keyOnly items = false -> exists i, In (Index i) items.
Proof.
  induction items as [ | [k | n] rest IH ]; cbn; [discriminate | | ].
  - intros H. destruct (IH H) as (i & Hi). exists i. now right.
  - intros _. exists n. now left.
Qed.

Lemma index_in_errors (errors : list ZodIssue) :
  forallb (fun issue => keyOnly (path issue)) errors = false ->
  exists issue i, In issue errors /\ In (Index i) (path issue).
Proof.
  induction errors as [ | issue rest IH ]; cbn; [discriminate | ].
  destruct (keyOnly (path issue)) eqn:Hhere; cbn.
  - intros H. destruct (IH H) as (issue' & i & Hin & Hi).
    exists issue', i. split; [now right | exact Hi].
  - intros _. destruct (index_in_path _ Hhere) as (i & Hi).
    exists issue, i. split; [now left | exact Hi].
Qed.

(** The body [validateRequest] sends with status 400 is accepted by the
    schema registered for that status exactly when no entry has an array
    index in its path, whatever schema the issues come from. *)
Theorem error_body_as_documented (errors : list ZodIssue) :
  accepts ValidationErrorResponse (errorBody errors)
  = forallb (fun issue => keyOnly (path issue)) errors.
Proof.
  destruct (forallb (fun issue => keyOnly (path issue)) errors) eqn:Hkeys.
  - unfold accepts, safeParseAsync, errorBody.
    cbn [_parse ValidationErrorResponse z.object get String.eqb
         Ascii.eqb Bool.eqb app].
    change (_parse (z.string None) [Key "error"] (VString "Validation failed"))
      with (@ret ParseReturn (OK (VString "Validation failed"))).
    rewrite (details_array_of_keys _ _ Hkeys). reflexivity.
  - apply documented_response. now apply index_in_errors.
Qed.

Lemma forallb_map {A B} (f : A -> B) (g : B -> bool) (xs : list A) :
  forallb g (map f xs) = forallb (fun x => g (f x)) xs.
Proof. induction xs as [ | x rest IH ]; cbn; congruence. Qed.

Lemma field_places_are_keys (field : string) (cs : list Constraint) :
  forallb keyOnly (map place (on field cs)) = true.
Proof. induction cs as [ | c rest IH ]; cbn; trivial. Qed.

Lemma element_places (items : list value) :
  forall i,
    forallb keyOnly (map place (element_violations i items))
    = forallb role_ok items.
Proof.
  induction items as [ | item rest IH ]; intros i; cbn; trivial.
  destruct (role_ok item); cbn; [apply IH | reflexivity].
Qed.

Lemma violation_places (payload : value) :
  forallb keyOnly (map place (violations payload)) = rolesElementsFine payload.
Proof.
  destruct payload as [ | | b | n | s | items | props ]; try reflexivity.
  cbn [violations rolesElementsFine].
  rewrite !map_app, !forallb_app, !field_places_are_keys. cbn [andb].
  destruct (get props "roles"); try reflexivity. apply element_places.
Qed.

(** For [POST /users]: a 400 body matches the documented 400 schema exactly
    when no violation lies inside the [roles] array; a bad name, e-mail or
    age, a [roles] that is not an array and a body that is not an object
    all give a body that matches. *)
Theorem user_error_body_as_documented (payload : value) (errors : list ZodIssue) :
  parseAsync CreateUserDTO payload = Throw (ZodError errors) ->
  POST_users payload
  = (["validateRequest"],
     Responded {| statusCode := 400; payload := errorBody errors |}) /\
  accepts ValidationErrorResponse (errorBody errors) = rolesElementsFine payload.
Proof.
  intros Hthrow.
  assert (Hsome : violations payload <> []).
  { intros Hnone. apply accepts_user_iff in Hnone.
    unfold accepts, CreateUserDTO, parseAsync in *.
    destruct (safeParseAsync UserSchema payload) as [[] | ]; discriminate. }
  destruct (post_users_rejected payload Hsome) as (errors' & F & E & Epost).
  rewrite E in Hthrow. injection Hthrow as <-.
  split; [exact Epost | ].
  rewrite error_body_as_documented, <- violation_places.
  rewrite <- (reports_same_places _ _ F). symmetry. apply forallb_map.
Qed.

Lemma user_error_body_as_documented_witness :
  exists errors,
    parseAsync CreateUserDTO Examples.wrongTypes = Throw (ZodError errors) /\
    accepts ValidationErrorResponse (errorBody errors) = true /\
    POST_users Examples.wrongTypes
    = (["validateRequest"],
       Responded {| statusCode := 400; payload := errorBody errors |}) /\
    accepts ValidationErrorResponse (errorBody errors)
    = rolesElementsFine Examples.wrongTypes.
Proof.
  eexists. split; [ reflexivity | ]. split; [ reflexivity | ].
  apply (user_error_body_as_documented Examples.wrongTypes). reflexivity.
Defined.

(* ================================================================== *)
(** ** [UpdateUserDTO]: the user schema with every field optional *)

Lemma update_shape :
  exists N E A R,
    UpdateUserDTO
    = ZodObject [ ("name", ZodOptional N); ("email", ZodOptional E);
                  ("age", ZodOptional A); ("roles", ZodOptional R) ] /\
    fieldSchema UserSchema "name" = Some N /\
    fieldSchema UserSchema "email" = Some E /\
    fieldSchema UserSchema "age" = Some A /\
    fieldSchema UserSchema "roles" = Some R.
Proof. do 4 eexists. repeat split; reflexivity. Qed.

Lemma update_name (S : ZodType) (v : value) :
  fieldSchema UserSchema "name" = Some S ->
  refines (ZodOptional S) [Key "name"] v
    (on "name" (whenPresent name_violations v)) v.
Proof.
  intros E. destruct v; try exact (name_field S _ E). refines_here.
Qed.

Lemma update_email (S : ZodType) (v : value) :
  fieldSchema UserSchema "email" = Some S ->
  refines (ZodOptional S) [Key "email"] v
    (on "email" (whenPresent email_violations v)) v.
Proof.
  intros E. destruct v; try exact (email_field S _ E). refines_here.
Qed.

Lemma update_age (S : ZodType) (v : value) :
  fieldSchema UserSchema "age" = Some S ->
  refines (ZodOptional S) [Key "age"] v (on "age" (age_violations v)) v.
Proof.
  intros E. destruct v; try exact (age_field S _ E). refines_here.
Qed.

Lemma update_roles (S : ZodType) (v : value) :
  fieldSchema UserSchema "roles" = Some S ->
  refines (ZodOptional S) [Key "roles"] v (roles_violations v) v.
Proof.
  intros E. destruct v; try exact (roles_field S _ E). refines_here.
Qed.

Lemma update_object (props : list (string * value)) :
  refines UpdateUserDTO [] (VObject props) (update_violations (VObject props))
    (picked props).
Proof.
  destruct update_shape as (N & E & A & R & -> & FN & FE & FA & FR).
  destruct (update_name N (get props "name") FN) as (r1 & i1 & E1 & F1 & M1).
  destruct (update_email E (get props "email") FE) as (r2 & i2 & E2 & F2 & M2).
  destruct (update_age A (get props "age") FA) as (r3 & i3 & E3 & F3 & M3).
  destruct (update_roles R (get props "roles") FR) as (r4 & i4 & E4 & F4 & M4).
  remember (ZodOptional N) as ON. remember (ZodOptional E) as OE.
  remember (ZodOptional A) as OA. remember (ZodOptional R) as OR.
  unfold refines. cbn [_parse app].
  rewrite E1, E2, E3, E4. cbn [bind fst snd ret].
  eexists _, _. split; [reflexivity | ]. split.
  - rewrite !app_nil_r. cbn [update_violations].
    repeat apply Forall2_app; assumption.
  - cbn [update_violations].
    merge_field r1 M1; merge_field r2 M2; merge_field r3 M3; merge_field r4 M4.
    destruct M1 as [N1 ->], M2 as [N2 ->], M3 as [N3 ->], M4 as [N4 ->].
    split; [now rewrite N1, N2, N3, N4 | ].
    rewrite !set_when_defined. unfold picked. cbn [flat_map declaredFields].
    destruct (hasKey props "name"), (hasKey props "email"),
      (hasKey props "age"), (hasKey props "roles"); reflexivity.
Qed.

Lemma update_parse (payload : value) :
  exists r issues,
    _parse UpdateUserDTO [] payload = (Return r, issues) /\
    Forall2 reports issues (update_violations payload) /\
    match r with
    | Parsed valid o =>
        update_violations payload = [] /\
        exists props, payload = VObject props /\ o = picked props
    | Parsed aborted _ => False
    | _ => update_violations payload <> []
    end.
Proof.
  destruct payload as [ | | b | n | s | items | props ].
  7: { destruct (update_object props) as (r & issues & E & F & M).
       exists r, issues. repeat split; trivial.
       destruct r as [ | [ | | ] o ]; trivial.
       destruct M as [N ->]. split; [exact N | now exists props]. }
  all: try (destruct n); eexists _, _; (split; [reflexivity | ]);
    (split; [ repeat constructor; cbn; auto; try discriminate
            | cbn; discriminate ]).
Qed.

Lemma update_accepted (props : list (string * value)) :
  update_violations (VObject props) = [] ->
  parseAsync UpdateUserDTO (VObject props) = Return (picked props).
Proof.
  intros Hnone. unfold parseAsync, safeParseAsync.
  destruct (update_parse (VObject props)) as (r & issues & E & F & M). rewrite E.
  destruct r as [ | [ | | ] o ]; try contradiction; try (now elim M).
  destruct M as [_ (props' & [= <-] & ->)]. reflexivity.
Qed.

Lemma update_rejected (payload : value) :
  update_violations payload <> [] ->
  exists errors,
    Forall2 reports errors (update_violations payload) /\
    parseAsync UpdateUserDTO payload = Throw (ZodError errors).
Proof.
  intros Hsome. unfold parseAsync, safeParseAsync.
  destruct (update_parse payload) as (r & issues & E & F & M). rewrite E.
  exists issues. split; [exact F | ].
  assert (Hissues : issues <> []).
  { intros ->. apply reports_same_length in F.
    destruct (update_violations payload); [congruence | discriminate F]. }
  destruct r as [ | [ | | ] o ]; try contradiction;
    try (now elim Hsome); destruct issues; try congruence; reflexivity.
Qed.

Lemma present_name_ok_iff (v : value) :
  isUndefined v || name_ok v = true <-> whenPresent name_violations v = [].
Proof.
  destruct v; try apply name_ok_iff. cbn; tauto.
Qed.

Lemma present_email_ok_iff (v : value) :
  isUndefined v || email_ok v = true <-> whenPresent email_violations v = [].
Proof.
  destruct v; try apply email_ok_iff. cbn; tauto.
Qed.

Lemma valid_update_no_violation (props : list (string * value)) :
  valid_update props = true <-> update_violations (VObject props) = [].
Proof.
  unfold valid_update, update_violations, absent.
  rewrite !andb_true_iff, !app_nil_iff, !on_nil.
  rewrite present_name_ok_iff, present_email_ok_iff, age_ok_iff, roles_ok_iff.
  tauto.
Qed.

(** [UpdateUserDTO] accepts a payload exactly when every field that is
    present satisfies its constraint; no field is required.  It then returns
    the declared properties the payload has, as they are. *)
Theorem update_accepts_present_fields :
  (forall props,
     (exists out, parseAsync UpdateUserDTO (VObject props) = Return out)
     <-> valid_update props = true) /\
  (forall props,
     valid_update props = true ->
     parseAsync UpdateUserDTO (VObject props) = Return (picked props)).
Proof.
  split.
  - intros props. split.
    + intros (out & Eout). apply valid_update_no_violation.
      destruct (update_violations (VObject props)) eqn:Hviol; trivial.
      destruct (update_rejected (VObject props)) as (errors & _ & E);
        [ rewrite Hviol; discriminate | congruence ].
    + intros Hvalid. eexists. apply update_accepted.
      now apply valid_update_no_violation.
  - intros props Hvalid. apply update_accepted.
    now apply valid_update_no_violation.
Qed.

Lemma update_accepts_present_fields_witness :
  ((exists out, parseAsync UpdateUserDTO (VObject Samples.onlyAge) = Return out)
   <-> valid_update Samples.onlyAge = true) /\
  parseAsync UpdateUserDTO (VObject Samples.onlyAge)
  = Return (VObject Samples.onlyAge) /\
  parseAsync UpdateUserDTO (VObject []) = Return (VObject []).
Proof.
  destruct update_accepts_present_fields as (Hiff & Hout).
  split; [ apply Hiff | ].
  split; [ apply (Hout Samples.onlyAge) | apply (Hout []) ]; reflexivity.
Defined.

Lemma hasKey_in_keys (props : list (string * value)) (key : string) :
  hasKey props key = true -> In key (keys props).
Proof.
  induction props as [ | [k v] rest IH ]; cbn; [discriminate | ].
  destruct (String.eqb_spec k key); [now left | right; now apply IH].
Qed.

Lemma picked_passes_through (props : list (string * value)) :
  exists kept,
    picked props = VObject kept /\
    incl (keys kept) (keys props) /\
    incl (keys kept) declaredFields /\
    forall key, In key declaredFields -> get kept key = get props key.
Proof.
  unfold picked. eexists. split; [reflexivity | ].
  cbn [flat_map declaredFields].
  destruct (hasKey props "name") eqn:Hn, (hasKey props "email") eqn:He,
    (hasKey props "age") eqn:Ha, (hasKey props "roles") eqn:Hr;
    (split; [ | split ]);
    try (intros k Hk; cbn in Hk;
         repeat (destruct Hk as [<- | Hk]; [now apply hasKey_in_keys | ]);
         now elim Hk);
    try (intros k Hk; cbn in *; tauto);
    intros key [<- | [<- | [<- | [<- | []]]]]; cbn;
    rewrite ?(get_hasKey _ _ Hn), ?(get_hasKey _ _ He),
      ?(get_hasKey _ _ Ha), ?(get_hasKey _ _ Hr); reflexivity.
Qed.

(** What [UpdateUserDTO] returns has no property the payload lacks: in
    particular the default of [roles] is not applied.  Declared properties
    pass through unchanged and undeclared ones are dropped. *)
Theorem update_adds_nothing (props : list (string * value)) (out : value) :
  parseAsync UpdateUserDTO (VObject props) = Return out ->
  exists kept,
    out = VObject kept /\
    incl (keys kept) (keys props) /\
    incl (keys kept) declaredFields /\
    forall key, In key declaredFields -> get kept key = get props key.
Proof.
  intros Hparse.
  assert (Hvalid : valid_update props = true).
  { apply valid_update_no_violation.
    destruct (update_violations (VObject props)) eqn:Hviol; trivial.
    destruct (update_rejected (VObject props)) as (errors & _ & E);
      [ rewrite Hviol; discriminate | congruence ]. }
  apply valid_update_no_violation in Hvalid.
  rewrite (update_accepted props Hvalid) in Hparse. injection Hparse as <-.
  apply picked_passes_through.
Qed.

Lemma update_adds_nothing_witness :
  exists kept,
    VObject [ ("name", VString "Al"); ("email", VString "al@example.com") ]
    = VObject kept /\
    incl (keys kept) (keys Examples.alNick) /\
    incl (keys kept) declaredFields /\
    forall key, In key declaredFields -> get kept key = get Examples.alNick key.
Proof.
  apply (update_adds_nothing Examples.alNick). reflexivity.
Defined.

(** The issues of [UpdateUserDTO] are the violated constraints of the
    fields that are present, one for one and in declaration order; an absent
    field gives no entry. *)
Theorem update_one_entry_per_violation (payload : value) (errors : list ZodIssue) :
  parseAsync UpdateUserDTO payload = Throw (ZodError errors) ->
  Forall2 reports errors (update_violations payload) /\
  List.length errors = List.length (update_violations payload).
Proof.
  intros Hthrow.
  destruct (update_violations payload) eqn:Hviol.
  - destruct payload; try discriminate Hviol.
    rewrite (update_accepted props Hviol) in Hthrow. discriminate Hthrow.
  - destruct (update_rejected payload) as (errors' & F & E);
      [ rewrite Hviol; discriminate | ].
    rewrite E in Hthrow. injection Hthrow as <-. rewrite Hviol in F.
    split; [exact F | now apply reports_same_length].
Qed.

Lemma update_one_entry_per_violation_witness :
  exists errors,
    parseAsync UpdateUserDTO (VObject Samples.shortName) = Throw (ZodError errors) /\
    update_violations (VObject Samples.shortName)
    = [ mkViolation [Key "name"] (MinLength 2) ] /\
    Forall2 reports errors (update_violations (VObject Samples.shortName)) /\
    List.length errors = List.length (update_violations (VObject Samples.shortName)).
Proof.
  eexists. split; [ reflexivity | ]. split; [ reflexivity | ].
  apply (update_one_entry_per_violation (VObject Samples.shortName)). reflexivity.
Defined.

Lemma valid_user_valid_update (props : list (string * value)) :
  valid_user props = true -> valid_update props = true.
Proof.
  unfold valid_user, valid_update. rewrite !andb_true_iff.
  intros [[[-> ->] ->] ->]. now rewrite !orb_true_r.
Qed.

Lemma normalized_picked (props : list (string * value)) :
  valid_user props = true ->
  get props "roles" <> VUndefined ->
  picked props = normalized props.
Proof.
  unfold valid_user. rewrite !andb_true_iff. intros [[[Hn He] _] _] Hroles.
  unfold picked, normalized. cbn [flat_map declaredFields].
  rewrite (get_defined_hasKey props "name"),
    (get_defined_hasKey props "email"), (get_defined_hasKey props "roles");
    trivial.
  - destruct (hasKey props "age"), (get props "roles");
      try reflexivity; now elim Hroles.
  - intros E. rewrite E in He. discriminate He.
  - intros E. rewrite E in Hn. discriminate Hn.
Qed.

(** Whatever [CreateUserDTO] accepts, [UpdateUserDTO] accepts; and when the
    payload gives [roles] both return the same value (they differ only in
    the default [CreateUserDTO] fills in). *)
Theorem create_accepted_update_accepted (payload out : value) :
  parseAsync CreateUserDTO payload = Return out ->
  (exists out', parseAsync UpdateUserDTO payload = Return out') /\
  (property payload "roles" <> VUndefined ->
   parseAsync UpdateUserDTO payload = Return out).
Proof.
  intros Hcreate.
  assert (exists props,
            payload = VObject props /\ valid_user props = true /\
            out = normalized props) as (props & -> & Hvalid & ->).
  { destruct (user_parse payload) as (r & issues & E & F & M).
    unfold CreateUserDTO, parseAsync, safeParseAsync in Hcreate.
    rewrite E in Hcreate.
    destruct r as [ | [ | | ] o ], issues; cbn in Hcreate;
      try discriminate Hcreate; try contradiction.
    - injection Hcreate as <-. destruct M as [Hnone (props & -> & ->)].
      exists props. repeat split. now apply valid_user_no_violation.
    - injection Hcreate as <-. destruct M as [Hnone (props & -> & ->)].
      exists props. repeat split. now apply valid_user_no_violation. }
  pose proof (update_accepted props
                (proj1 (valid_update_no_violation props)
                       (valid_user_valid_update props Hvalid))) as Hupdate.
  split; [ now exists (picked props) | ].
  cbn [property]. intros Hroles. rewrite Hupdate.
  now rewrite normalized_picked.
Qed.

Lemma create_accepted_update_accepted_witness :
  parseAsync CreateUserDTO (VObject Examples.ann) = Return (normalized Examples.ann) /\
  (exists out', parseAsync UpdateUserDTO (VObject Examples.ann) = Return out') /\
  (property (VObject Examples.ann) "roles" <> VUndefined ->
   parseAsync UpdateUserDTO (VObject Examples.ann)
   = Return (normalized Examples.ann)).
Proof.
  split; [ reflexivity | ].
  apply (create_accepted_update_accepted (VObject Examples.ann)). reflexivity.
Defined.

(* ================================================================== *)
(** ** Further properties of [GetUserQueryDTO] *)

Lemma query_parse (payload : value) :
  exists r issues,
    _parse GetUserQueryDTO [] payload = (Return r, issues) /\
    Forall2 reports issues (query_violations payload) /\
    match r with
    | Parsed valid o =>
        query_violations payload = [] /\
        exists props, payload = VObject props /\ o = normalized_query props
    | Parsed aborted _ => False
    | _ => query_violations payload <> []
    end.
Proof.
  destruct payload as [ | | b | n | s | items | props ].
  7: { destruct (query_object props) as (r & issues & E & F & M).
       exists r, issues. repeat split; trivial.
       destruct r as [ | [ | | ] o ]; trivial.
       destruct M as [N ->]. split; [exact N | now exists props]. }
  all: try (destruct n); eexists _, _; (split; [reflexivity | ]);
    (split; [ repeat constructor; cbn; auto; try discriminate
            | cbn; discriminate ]).
Qed.

(** What [parseAsync] gives, read off [_parse]. *)
Lemma query_outcome (payload : value) :
  (exists props,
     payload = VObject props /\ query_violations payload = [] /\
     parseAsync GetUserQueryDTO payload = Return (normalized_query props)) \/
  (exists errors,
     query_violations payload <> [] /\
     errors = snd (_parse GetUserQueryDTO [] payload) /\
     Forall2 reports errors (query_violations payload) /\
     parseAsync GetUserQueryDTO payload = Throw (ZodError errors)).
Proof.
  destruct (query_parse payload) as (r & issues & E & F & M).
  unfold parseAsync, safeParseAsync. rewrite E. cbn [snd].
  destruct r as [ | [ | | ] o ]; try contradiction.
  - right. exists issues. repeat split; trivial.
    destruct issues; [ | reflexivity ].
    apply reports_same_length in F.
    destruct (query_violations payload); [now elim M | discriminate F].
  - left. destruct M as [Hnone (props & -> & ->)].
    exists props. repeat split; trivial.
  - right. exists issues. repeat split; trivial.
    destruct issues; [ | reflexivity ].
    apply reports_same_length in F.
    destruct (query_violations payload); [now elim M | discriminate F].
Qed.

Lemma includeRoles_worded (S : ZodType) (v : value) :
  fieldSchema GetUserQueryDTO "includeRoles" = Some S ->
  Forall2 query_worded (snd (_parse S [Key "includeRoles"] v))
    (on "includeRoles" (includeRoles_violations v)).
Proof.
  intros E; injection E as <-.
  destruct v as [ | | b | n | s | items | props ];
    try (destruct n); worded_here.
Qed.

Lemma page_worded (S : ZodType) (v : value) :
  fieldSchema GetUserQueryDTO "page" = Some S ->
  Forall2 query_worded (snd (_parse S [Key "page"] v))
    (on "page" (page_violations v)).
Proof.
  intros E; injection E as <-.
  destruct v as [ | | b | n | s | items | props ]; try worded_here.
  destruct n as [q | | | ]; try worded_here.
  all: unfold page_violations; cbn -[isInteger JS.lt whole atLeast].
  all: spec_tests (Finite q).
  all: worded_here.
Qed.

Lemma limit_worded (S : ZodType) (v : value) :
  fieldSchema GetUserQueryDTO "limit" = Some S ->
  Forall2 query_worded (snd (_parse S [Key "limit"] v))
    (on "limit" (limit_violations v)).
Proof.
  intros E; injection E as <-.
  destruct v as [ | | b | n | s | items | props ]; try worded_here.
  destruct n as [q | | | ]; try worded_here.
  all: unfold limit_violations;
    cbn -[isInteger JS.lt JS.gt whole atLeast atMost].
  all: spec_tests (Finite q).
  all: worded_here.
Qed.

Lemma query_worded_issues (payload : value) :
  Forall2 query_worded (snd (_parse GetUserQueryDTO [] payload))
    (query_violations payload).
Proof.
  destruct payload as [ | | b | n | s | items | props ];
    try (destruct n); try worded_here.
  cbn [_parse GetUserQueryDTO z.object app].
  match goal with |- context [_parse ?S [Key "includeRoles"] ?v] =>
    pose proof (includeRoles_worded S v eq_refl) as W1;
    destruct (includeRoles_field S v eq_refl) as (r1 & i1 & E1 & _) end.
  match goal with |- context [_parse ?S [Key "page"] ?v] =>
    pose proof (page_worded S v eq_refl) as W2;
    destruct (page_field S v eq_refl) as (r2 & i2 & E2 & _) end.
  match goal with |- context [_parse ?S [Key "limit"] ?v] =>
    pose proof (limit_worded S v eq_refl) as W3;
    destruct (limit_field S v eq_refl) as (r3 & i3 & E3 & _) end.
  rewrite E1 in W1. rewrite E2 in W2. rewrite E3 in W3.
  rewrite E1, E2, E3. cbn [bind fst snd ret] in *.
  rewrite !app_nil_r. cbn [query_violations].
  repeat apply Forall2_app; assumption.
Qed.

(** The issues of the query schema are its violated constraints, one for
    one and in declaration order ([includeRoles], [page], [limit]; integer,
    then minimum, then maximum), each with the message [server.ts] declares
    for it. *)
Theorem query_messages_as_declared (payload : value) (errors : list ZodIssue) :
  parseAsync GetUserQueryDTO payload = Throw (ZodError errors) ->
  Forall2 query_worded errors (query_violations payload) /\
  List.length errors = List.length (query_violations payload).
Proof.
  intros Hthrow. pose proof (query_worded_issues payload) as W.
  destruct (query_outcome payload)
    as [ (props & _ & _ & E) | (errors' & _ & -> & F & E) ];
    rewrite E in Hthrow; [ discriminate Hthrow | ].
  injection Hthrow as <-.
  split; [ exact W | now apply reports_same_length ].
Qed.

Lemma query_messages_as_declared_witness :
  exists errors,
    parseAsync GetUserQueryDTO (VObject Samples.stringPage)
    = Throw (ZodError errors) /\
    map message errors = [ "Page must be a number."; "Limit cannot exceed 100." ] /\
    Forall2 query_worded errors (query_violations (VObject Samples.stringPage)) /\
    List.length errors = List.length (query_violations (VObject Samples.stringPage)).
Proof.
  eexists. split; [ reflexivity | ]. split; [ reflexivity | ].
  apply (query_messages_as_declared (VObject Samples.stringPage)). reflexivity.
Defined.

Lemma in_on (field : string) (cs : list Constraint) (v : Violation) :
  In v (on field cs) -> exists c, v = mkViolation [Key field] c /\ In c cs.
Proof.
  unfold on. intros H. apply in_map_iff in H as (c & <- & Hc). now exists c.
Qed.

Lemma integer_violation_kinds (lo : Z) (hi : option Z) (n : number) (c : Constraint) :
  In c (integer_violations lo hi n) ->
  c = Integer \/ c = Minimum lo \/ exists h, hi = Some h /\ c = Maximum h.
Proof.
  unfold integer_violations.
  destruct (whole n), (atLeast lo n), hi as [h | ];
    try destruct (atMost h n); cbn; intuition eauto.
Qed.

(** Every violation of a query is a root violation or one of the declared
    constraints of a field. *)
Lemma query_violation_kinds (payload : value) (v : Violation) :
  In v (query_violations payload) ->
  (place v = [] /\ (broken v = Required \/ broken v = TypeOf "object")) \/
  (exists field c,
     v = mkViolation [Key field] c /\ In (field, c) queryConstraints).
Proof.
  destruct payload as [ | | b | n | s | items | props ]; cbn [query_violations];
    try (intros [<- | []]; left; cbn; auto).
  intros H. right.
  apply in_app_or in H as [H | H]; [ | apply in_app_or in H as [H | H] ];
    apply in_on in H as (c & -> & Hc).
  - exists "includeRoles", c. split; [reflexivity | ].
    destruct (get props "includeRoles"); cbn in Hc; intuition subst; cbn; auto.
  - exists "page", c. split; [reflexivity | ].
    destruct (get props "page") as [ | | ? | n | ? | ? | ? ];
      try (cbn in Hc; intuition subst; cbn; now auto 12).
    destruct n; try (cbn in Hc; intuition subst; cbn; now auto 12);
      apply (integer_violation_kinds 1 None) in Hc
        as [-> | [-> | (h & [=] & _)]];
      cbn; auto 12.
  - exists "limit", c. split; [reflexivity | ].
    destruct (get props "limit") as [ | | ? | n | ? | ? | ? ];
      try (cbn in Hc; intuition subst; cbn; now auto 12).
    destruct n; try (cbn in Hc; intuition subst; cbn; now auto 12);
      apply (integer_violation_kinds 1 (Some 100%Z)) in Hc
        as [-> | [-> | (h & [= <-] & ->)]];
      cbn; auto 12.
Qed.

(** Two messages [server.ts] declares for [includeRoles] are never sent:
    the required error (the default covers an absent field) and the message
    of the refinement (it runs only on a value the boolean schema has
    accepted, so it never fails and no issue has the code [custom]). *)
Theorem query_unused_messages (payload : value) (errors : list ZodIssue) :
  parseAsync GetUserQueryDTO payload = Throw (ZodError errors) ->
  Forall (fun issue =>
            message issue <> includeRolesRequired /\
            message issue <> includeRolesRefined /\
            data issue <> custom)
         errors.
Proof.
  intros Hthrow. pose proof (query_worded_issues payload) as W.
  destruct (query_outcome payload)
    as [ (props & _ & _ & E) | (errors' & _ & -> & _ & E) ];
    rewrite E in Hthrow; [ discriminate Hthrow | ].
  injection Hthrow as <-.
  apply Forall_forall. intros issue Hissue.
  destruct (Forall2_In_left _ _ _ _ W Hissue)
    as (v & Hv & (Hpath & Hexplains) & Hmessage).
  destruct issue as [d p m]. cbn [data path message] in *. subst m.
  destruct (query_violation_kinds _ _ Hv)
    as [ (Hplace & Hbroken) | (field & c & -> & Hc) ].
  - unfold query_wording. rewrite Hplace.
    destruct Hbroken as [Hb | Hb]; rewrite Hb in Hexplains;
      destruct d; cbn in Hexplains; try contradiction.
    + subst received. repeat split; discriminate.
    + destruct Hexplains as [_ Hreceived].
      apply String.eqb_neq in Hreceived. cbn. rewrite Hreceived.
      repeat split; discriminate.
  - cbn [broken] in Hexplains.
    cbn in Hc.
    repeat (destruct Hc as [[= <- <-] | Hc];
            [ destruct d; cbn in Hexplains; try contradiction;
              repeat split; discriminate | ]).
    now elim Hc.
Qed.

Lemma query_unused_messages_witness :
  exists errors,
    parseAsync GetUserQueryDTO
      (VObject [ ("includeRoles", VString "yes"); ("page", VNumber (ofZ 0)) ])
    = Throw (ZodError errors) /\
    map message errors
    = [ "IncludeRoles must be a boolean."; "Page must be at least 1." ] /\
    Forall (fun issue =>
              message issue <> includeRolesRequired /\
              message issue <> includeRolesRefined /\
              data issue <> custom)
           errors.
Proof.
  eexists. split; [ reflexivity | ]. split; [ reflexivity | ].
  apply (query_unused_messages
           (VObject [ ("includeRoles", VString "yes"); ("page", VNumber (ofZ 0)) ])).
  reflexivity.
Defined.

Lemma normalized_query_is_normal (props : list (string * value)) :
  valid_query props = true ->
  exists props',
    normalized_query props = VObject props' /\
    valid_query props' = true /\
    normalized_query props' = normalized_query props /\
    keys props' = queryFields /\
    forall key, In key queryFields -> get props' key <> VUndefined.
Proof.
  unfold valid_query. rewrite !andb_true_iff. intros [[Hflag Hpage] Hlimit].
  eexists. split; [reflexivity | ].
  unfold normalized_query, valid_query. cbn [get String.eqb Ascii.eqb Bool.eqb].
  destruct (get props "includeRoles"); try discriminate Hflag;
    destruct (get props "page"); try discriminate Hpage;
    destruct (get props "limit"); try discriminate Hlimit;
    cbn [withDefault flag_ok andb];
    rewrite ?Hpage, ?Hlimit;
    (repeat split; try reflexivity;
     intros key [<- | [<- | [<- | []]]]; cbn; discriminate).
Qed.

(** The query schema is idempotent on its output, and what it returns
    always has exactly the three fields [includeRoles], [page] and [limit],
    each with a value. *)
Theorem query_parse_idempotent (payload out : value) :
  parseAsync GetUserQueryDTO payload = Return out ->
  parseAsync GetUserQueryDTO out = Return out /\
  ownKeys out = queryFields /\
  forall key, In key queryFields -> property out key <> VUndefined.
Proof.
  intros Hparse.
  destruct (query_outcome payload)
    as [ (props & -> & Hnone & E) | (errors & _ & _ & _ & E) ];
    rewrite E in Hparse; [ | discriminate Hparse ].
  injection Hparse as <-.
  apply valid_query_no_violation in Hnone.
  destruct (normalized_query_is_normal props Hnone)
    as (props' & E' & Hvalid & Hsame & Hkeys & Hdefined).
  rewrite E'. cbn [ownKeys property]. repeat split; trivial.
  rewrite query_accepted by now apply valid_query_no_violation.
  now rewrite Hsame, E'.
Qed.

Lemma query_parse_idempotent_witness :
  parseAsync GetUserQueryDTO (VObject Examples.secondPage)
  = Return (normalized_query Examples.secondPage) /\
  parseAsync GetUserQueryDTO (normalized_query Examples.secondPage)
  = Return (normalized_query Examples.secondPage) /\
  ownKeys (normalized_query Examples.secondPage) = queryFields /\
  forall key, In key queryFields ->
    property (normalized_query Examples.secondPage) key <> VUndefined.
Proof.
  split; [ reflexivity | ].
  apply (query_parse_idempotent (VObject Examples.secondPage)). reflexivity.
Defined.

Lemma query_string_entry (props : list (string * value)) (field wording : string) :
  In (mkViolation [Key field] (TypeOf "number")) (query_violations (VObject props)) ->
  (forall d, query_wording (mkViolation [Key field] (TypeOf "number")) d
             = wording) ->
  exists errors issue,
    parseAsync GetUserQueryDTO (VObject props) = Throw (ZodError errors) /\
    In issue errors /\
    path issue = [Key field] /\
    code (data issue) = "invalid_type" /\
    message issue = wording.
Proof.
  intros Hin Hwording.
  destruct (query_outcome (VObject props))
    as [ (props' & _ & Hnone & _) | (errors & _ & Esnd & _ & E) ].
  - rewrite Hnone in Hin. now elim Hin.
  - pose proof (query_worded_issues (VObject props)) as W. rewrite <- Esnd in W.
    destruct (Forall2_In_right _ _ _ _ W Hin)
      as (issue & Hissue & (Hpath & Hexplains) & Hmessage).
    exists errors, issue. repeat split; trivial.
    + destruct (data issue); cbn in Hexplains; try contradiction. reflexivity.
    + now rewrite Hmessage, Hwording.
Qed.

(** A [page] or [limit] that is a string, as the parameters of a URL query
    string are, is rejected: the entry for the field has the code
    [invalid_type] and the message "must be a number". *)
Theorem query_rejects_numeric_strings (props : list (string * value)) (s : string) :
  (get props "page" = VString s ->
   exists errors issue,
     parseAsync GetUserQueryDTO (VObject props) = Throw (ZodError errors) /\
     In issue errors /\
     path issue = [Key "page"] /\
     code (data issue) = "invalid_type" /\
     message issue = "Page must be a number.") /\
  (get props "limit" = VString s ->
   exists errors issue,
     parseAsync GetUserQueryDTO (VObject props) = Throw (ZodError errors) /\
     In issue errors /\
     path issue = [Key "limit"] /\
     code (data issue) = "invalid_type" /\
     message issue = "Limit must be a number.").
Proof.
  split; intros Hfield;
    apply (query_string_entry props); try reflexivity;
    cbn [query_violations]; rewrite Hfield.
  - apply in_or_app; right. apply in_or_app; left. cbn. auto.
  - apply in_or_app; right. apply in_or_app; right. cbn. auto.
Qed.

Lemma query_rejects_numeric_strings_witness :
  exists errors issue,
    parseAsync GetUserQueryDTO (VObject Samples.stringPage)
    = Throw (ZodError errors) /\
    In issue errors /\
    path issue = [Key "page"] /\
    code (data issue) = "invalid_type" /\
    message issue = "Page must be a number.".
Proof.
  apply (proj1 (query_rejects_numeric_strings Samples.stringPage "2")).
  reflexivity.
Defined.
